(** * braid: text pre-processing (preprocessing.py)

    A shallow embedding of the [Preprocessing] class of preprocessing.py and
    the properties of its transform pipeline, its token accountant and its
    bag-of-words table.

    Strings.  The table is read with [pd.read_csv('data.csv',
    encoding='latin-1')], so every character of a cell is a code point below
    256.  A Python string is therefore a [list ascii], where an [ascii] is
    the latin-1 code point of the character. *)

From Stdlib Require Import Ascii String List Bool Arith NArith Lia FunInd.
From stdpp Require Import gmap strings list fin_maps sorting.

Set Default Proof Using "Type".

(** * The program *)

(** ** Python strings *)

Abbreviation str := (list ascii).

(** A string literal of the source. *)
Definition py (s : string) : str := list_ascii_of_string s.

Definition ord (c : ascii) : N := N_of_ascii c.
Definition chr (n : N) : ascii := ascii_of_N n.

Definition between (lo hi n : N) : bool := ((lo <=? n) && (n <=? hi))%N.

(** ** Python's character tables on the code points below 256

    These are the predicates of CPython's Unicode database ([str.isalpha],
    [str.isdecimal], [str.isdigit], [str.isnumeric], [str.isspace],
    [str.lower]) restricted to latin-1. *)
Module Unicode.

(** [str.isdecimal], category Nd: the ten digits 0-9. *)
Definition isdecimal (c : ascii) : bool := between 48 57 (ord c).

(** [str.isdigit]: the decimals and the superscripts two, three, one. *)
Definition isdigit (c : ascii) : bool :=
  let n := ord c in
  (isdecimal c || (n =? 178) || (n =? 179) || (n =? 185))%N.

(** [str.isnumeric]: the digits and the vulgar fractions. *)
Definition isnumeric (c : ascii) : bool :=
  isdigit c || between 188 190 (ord c).

(** [str.isalpha], categories L*: A-Z, a-z, the ordinal indicators, the
    micro sign and the accented letters (not the multiplication and
    division signs, 215 and 247). *)
Definition isalpha (c : ascii) : bool :=
  let n := ord c in
  (between 65 90 n || between 97 122 n
   || (n =? 170) || (n =? 181) || (n =? 186)
   || between 192 214 n || between 216 246 n || between 248 255 n)%N.

(** [str.isalnum]. *)
Definition isalnum (c : ascii) : bool :=
  isalpha c || isdecimal c || isdigit c || isnumeric c.

(** [str.isspace]: tab, line feed, vertical tab, form feed, carriage
    return, the four separators 28-31, space, next line, no-break
    space. *)
Definition isspace (c : ascii) : bool :=
  let n := ord c in
  (between 9 13 n || between 28 32 n || (n =? 133) || (n =? 160))%N.

(** The lowercase mapping of one character: A-Z and the accented capitals
    move up by 32; everything else is its own lowercase. *)
Definition tolower (c : ascii) : ascii :=
  let n := ord c in
  if (between 65 90 n || between 192 214 n || between 216 222 n)%N
  then chr (n + 32) else c.

End Unicode.

(** ** The fragment of Python's [re] that the source uses

    Patterns are those of the three [re.compile]/[re.sub] calls: character
    sets, one-character negative lookbehind and lookahead, concatenation,
    alternation, a greedy [+] on a set and a counted repetition. *)
Module Re.

Inductive regex : Type :=
| In_ (p : ascii -> bool)            (* a set: [\d], [[^\w\s-]], [-] *)
| NotBehind (p : ascii -> bool)      (* [(?<!p)] *)
| NotAhead (p : ascii -> bool)       (* [(?!p)] *)
| Cat (r1 r2 : regex)                (* [r1 r2] *)
| Alt (r1 r2 : regex)                (* [r1|r2] *)
| Plus (p : ascii -> bool)           (* [p+], greedy *)
| Repeat (n : nat) (r : regex).       (* [r{n}] *)

(** The classes [\w], [\s], [\d] of a [str] pattern. *)
Definition word (c : ascii) : bool := Unicode.isalnum c || (ord c =? 95)%N.
Definition space (c : ascii) : bool := Unicode.isspace c.
Definition digit (c : ascii) : bool := Unicode.isdecimal c.

Definition lit (x : ascii) (c : ascii) : bool := (ord c =? ord x)%N.

(** A position in the subject: the characters before it, nearest first,
    and the characters from it on. *)
Definition cursor : Type := list ascii * list ascii.

(** [p+] from a position: every way to take one or more characters of
    [p], the longest first. *)
Fixpoint runs (p : ascii -> bool) (before after : list ascii) : list cursor :=
  match after with
  | c :: rest =>
      if p c then runs p (c :: before) rest ++ [(c :: before, rest)] else []
  | [] => []
  end.

(** The backtracking matcher: the positions at which a match of [r] that
    starts at the given position can end, in the order in which the
    engine tries them. *)
Fixpoint ends (r : regex) (at_ : cursor) : list cursor :=
  match r with
  | In_ p =>
      match at_ with
      | (before, c :: rest) => if p c then [(c :: before, rest)] else []
      | (_, []) => []
      end
  | NotBehind p =>
      match at_ with
      | (c :: _, _) => if p c then [] else [at_]
      | ([], _) => [at_]
      end
  | NotAhead p =>
      match at_ with
      | (_, c :: _) => if p c then [] else [at_]
      | (_, []) => [at_]
      end
  | Cat r1 r2 => flat_map (ends r2) (ends r1 at_)
  | Alt r1 r2 => ends r1 at_ ++ ends r2 at_
  | Plus p => runs p (fst at_) (snd at_)
  | Repeat n r1 =>
      (fix rep (k : nat) (cs : list cursor) : list cursor :=
         match k with
         | O => cs
         | S k' => rep k' (flat_map (ends r1) cs)
         end) n [at_]
  end.

(** The length of the match the engine reports at a position, if any. *)
Definition match_len (r : regex) (before after : list ascii) : option nat :=
  match ends r (before, after) with
  | (_, after') :: _ => Some (length after - length after')
  | [] => None
  end.

(** [re.sub(r, repl, subject)]: scan from the left; where the pattern
    matches, emit [repl] and resume after the match, elsewhere copy the
    character.  [skip] counts the characters of the current match still to
    pass over.  (None of the patterns of the source matches the empty
    string.) *)
Fixpoint sub_from (r : regex) (repl : str) (before : list ascii)
    (skip : nat) (subject : list ascii) : str :=
  match subject with
  | [] => []
  | c :: rest =>
      match skip with
      | S k => sub_from r repl (c :: before) k rest
      | O =>
          match match_len r before subject with
          | Some (S n) => repl ++ sub_from r repl (c :: before) n rest
          | Some O => repl ++ c :: sub_from r repl (c :: before) 0 rest
          | None => c :: sub_from r repl (c :: before) 0 rest
          end
      end
  end.

Definition sub (r : regex) (repl : str) (subject : str) : str :=
  sub_from r repl [] 0 subject.

End Re.

(** ** The string functions applied to one cell *)

(** [str.lower]. *)
Definition lower (x : str) : str := List.map Unicode.tolower x.

(** [str.split()] with no argument: the maximal runs of non-whitespace
    characters.  [cur] is the token being read. *)
Fixpoint split_from (cur : str) (x : str) : list str :=
  match x with
  | [] => match cur with [] => [] | _ => [cur] end
  | c :: rest =>
      if Unicode.isspace c
      then match cur with
           | [] => split_from [] rest
           | _ => cur :: split_from [] rest
           end
      else split_from (cur ++ [c]) rest
  end.

Definition split (x : str) : list str := split_from [] x.

(** [sep.join(words)]. *)
Fixpoint join (sep : str) (words : list str) : str :=
  match words with
  | [] => []
  | [w] => w
  | w :: rest => w ++ sep ++ join sep rest
  end.

(** [pattern] of [remove_punctuation]:
    [re.compile(r'(?<!\w)-(?!\w)|[^\w\s-]')]. *)
Definition hyphen : ascii := "-"%char.

Definition pattern : Re.regex :=
  Re.Alt
    (Re.Cat (Re.NotBehind Re.word) (Re.Cat (Re.In_ (Re.lit hyphen)) (Re.NotAhead Re.word)))
    (Re.In_ (fun c => negb (Re.word c || Re.space c || Re.lit hyphen c))).

(** [double_space_re] of [remove_punctuation]: [re.compile(r"\s{2}")]. *)
Definition double_space_re : Re.regex := Re.Repeat 2 (Re.In_ Re.space).

(** The two steps of [remove_punctuation] on one cell. *)
Definition strip_punctuation (x : str) : str := Re.sub pattern (py "") x.
Definition collapse_double_spaces (x : str) : str :=
  Re.sub double_space_re (py " ") x.

Definition remove_punctuation_cell (x : str) : str :=
  collapse_double_spaces (strip_punctuation x).

(** The lambda of [remove_numbers]: [re.sub(r'\d+', '', x)]. *)
Definition remove_numbers_cell (x : str) : str :=
  Re.sub (Re.Plus Re.digit) (py "") x.

(** ** The command line

    [parse_args] builds an [argparse.ArgumentParser] with three
    [BooleanOptionalAction] arguments, [--stop], [--stem] and [--lemma]
    (each also accepted as [--no-...]), all defaulting to [False], the last
    two in one mutually exclusive group; the parser adds [-h]/[--help]
    itself.  A command line is a list of these option strings, written in
    full. *)

Record Namespace : Type := { stop : bool; stem : bool; lemma : bool }.

Module Argparse.

Inductive dest : Type := dest_stop | dest_stem | dest_lemma.

(** An element of [sys.argv[1:]]: [-h]/[--help], or [--d] ([value] true)
    or [--no-d] ([value] false) for one of the three arguments, written in
    full.  Abbreviations, [--x=v], [--], positional and unknown arguments
    are not command lines of this model; what is stated about
    [parse_args] is stated for the command lines made of these seven
    option strings. *)
Inductive option_string : Type :=
| Help
| Flag (d : dest) (value : bool).

Inductive message : Type :=
| HelpText
| NotAllowedWith (given other : dest).

Inductive result : Type :=
| Parsed (args : Namespace)
| Exited (status : nat) (shown : message).

Definition dest_eqb (a b : dest) : bool :=
  match a, b with
  | dest_stop, dest_stop | dest_stem, dest_stem | dest_lemma, dest_lemma => true
  | _, _ => false
  end.

(** The other member of the mutually exclusive group of [d], if [d] is
    in the group. *)
Definition conflict (d : dest) : option dest :=
  match d with
  | dest_stem => Some dest_lemma
  | dest_lemma => Some dest_stem
  | dest_stop => None
  end.

Definition setattr (d : dest) (v : bool) (ns : Namespace) : Namespace :=
  match d with
  | dest_stop => {| stop := v; stem := stem ns; lemma := lemma ns |}
  | dest_stem => {| stop := stop ns; stem := v; lemma := lemma ns |}
  | dest_lemma => {| stop := stop ns; stem := stem ns; lemma := v |}
  end.

(** The parser takes the option strings from left to right.  [-h] prints
    the help and exits with status 0.  An argument of the group that
    comes after the other member of the group was seen is an error:
    usage and message on stderr, exit status 2.  Otherwise the value is
    stored; the last occurrence wins. *)
Fixpoint consume (argv : list option_string) (seen : list dest)
    (ns : Namespace) : result :=
  match argv with
  | [] => Parsed ns
  | Help :: _ => Exited 0 HelpText
  | Flag d v :: rest =>
      match conflict d with
      | Some other =>
          if existsb (dest_eqb other) seen
          then Exited 2 (NotAllowedWith d other)
          else consume rest (d :: seen) (setattr d v ns)
      | None => consume rest (d :: seen) (setattr d v ns)
      end
  end.

Definition defaults : Namespace :=
  {| stop := false; stem := false; lemma := false |}.

Definition parse_args (argv : list option_string) : result :=
  consume argv [] defaults.

End Argparse.

(** ** The [Preprocessing] object *)

Inductive method : Type :=
| Lowercase | RemoveNumbers | RemovePunctuation
| RemoveStopwords | StemWords | LemmatizeWords
| CreateBow | CountTypesAndTokens.

(** What the program does to the outside and which methods it runs, for
    the statements about order; [log] below is this record, oldest
    first, and no method reads it. *)
Inductive event : Type :=
| Mkdir                  (* [os.mkdir(self.output_dir)] *)
| ReadCsv                (* [pd.read_csv('data.csv', ...)] *)
| Call (m : method)
| ToCsv.                 (* a [to_csv] of the bag of words or of the column *)

(** [df] is the column [self.df[self.column_name]], one string per row, in
    row order; [bow] is unset until [create_bow]. *)
Record Preprocessing : Type := {
  inputs : Namespace;
  df : list str;
  all_tokens : gmap str nat;
  types : gset str;
  bow : option (list (str * nat));
  log : list event
}.

Definition set_df (col : list str) (self : Preprocessing) : Preprocessing :=
  {| inputs := inputs self; df := col; all_tokens := all_tokens self;
     types := types self; bow := bow self; log := log self |}.

Definition set_counts (ty : gset str) (tk : gmap str nat)
    (self : Preprocessing) : Preprocessing :=
  {| inputs := inputs self; df := df self; all_tokens := tk;
     types := ty; bow := bow self; log := log self |}.

Definition set_bow (b : list (str * nat)) (self : Preprocessing) : Preprocessing :=
  {| inputs := inputs self; df := df self; all_tokens := all_tokens self;
     types := types self; bow := Some b; log := log self |}.

Definition record (e : event) (self : Preprocessing) : Preprocessing :=
  {| inputs := inputs self; df := df self; all_tokens := all_tokens self;
     types := types self; bow := bow self; log := log self ++ [e] |}.

(** [self.df[col] = self.df[col].apply(f)], and likewise the [.str]
    accessors: the function is applied to every cell, in row order. *)
Definition apply (f : str -> str) (self : Preprocessing) : Preprocessing :=
  set_df (List.map f (df self)) self.

(** ** The token accountant: [count_types_and_tokens] *)

(** The body of the loop of [count_tokens] for one token. *)
Definition count_token (acc : gset str * gmap str nat) (token : str)
    : gset str * gmap str nat :=
  let ty := {[ token ]} ∪ acc.1 in
  match acc.2 !! token with
  | None => (ty, <[ token := 1 ]> acc.2)
  | Some n => (ty, <[ token := n + 1 ]> acc.2)
  end.

Definition count_tokens (acc : gset str * gmap str nat) (sentence : str)
    : gset str * gmap str nat :=
  fold_left count_token (split sentence) acc.

(** ** The bag of words: [create_bow]

    [.str.split(expand=True)] makes one row of cells per row of the
    column, padded with missing values to the longest row; [.stack()]
    lists the cells that are not missing, row by row; [.value_counts()]
    counts each distinct value and sorts by count, largest first. *)

Definition expand (rows : list (list str)) : list (list (option str)) :=
  let width := foldr Nat.max 0 (List.map (@length str) rows) in
  List.map (fun row => List.map Some row ++ replicate (width - length row) None)
    rows.

Definition stack (frame : list (list (option str))) : list str :=
  List.concat (List.map (fun row => omap id row) frame).

(** One more occurrence of [v] in a table of counts kept in order of first
    occurrence. *)
Fixpoint bump (v : str) (counts : list (str * nat)) : list (str * nat) :=
  match counts with
  | [] => [(v, 1)]
  | (k, n) :: rest => if decide (k = v) then (k, n + 1) :: rest
                      else (k, n) :: bump v rest
  end.

Definition tally (values : list str) : list (str * nat) :=
  fold_left (fun counts v => bump v counts) values [].

(** Rows with the larger count come first.  pandas does not fix the order
    of rows with equal counts, and the order that [value_counts] below
    gives them need not be the one of a real run; no statement depends on
    it. *)
Definition by_count_desc (a b : str * nat) : Prop := b.2 ≤ a.2.

Global Instance by_count_desc_dec a b : Decision (by_count_desc a b).
Proof. unfold by_count_desc. apply _. Defined.

Definition value_counts (values : list str) : list (str * nat) :=
  merge_sort by_count_desc (tally values).

(** ** The methods *)

Section Methods.

(** The resources of nltk: [stopwords.words('english')],
    [PorterStemmer().stem] and [WordNetLemmatizer().lemmatize]. *)
Variable stopwords_en : list str.
Variable stemmer_stem : str -> str.
Variable lemmatizer_lemmatize : str -> str.

Definition lowercase (self : Preprocessing) : Preprocessing :=
  record (Call Lowercase) (apply lower self).

Definition remove_punctuation (self : Preprocessing) : Preprocessing :=
  record (Call RemovePunctuation)
    (apply collapse_double_spaces (apply strip_punctuation self)).

Definition remove_numbers (self : Preprocessing) : Preprocessing :=
  record (Call RemoveNumbers) (apply remove_numbers_cell self).

Definition remove_stop_words (phrase : str) : str :=
  let words := split phrase in
  let filtered :=
    List.filter (fun w => negb (bool_decide (lower w ∈ stopwords_en))) words in
  join (py " ") filtered.

Definition remove_stopwords (self : Preprocessing) : Preprocessing :=
  record (Call RemoveStopwords) (apply remove_stop_words self).

Definition stem_phrase (phrase : str) : str :=
  let words := split phrase in
  let stemmed := List.map stemmer_stem words in
  join (py " ") stemmed.

Definition stem_words (self : Preprocessing) : Preprocessing :=
  record (Call StemWords) (apply stem_phrase self).

Definition lemmatize_phrase (phrase : str) : str :=
  let words := split phrase in
  let lemmatized := List.map lemmatizer_lemmatize words in
  join (py " ") lemmatized.

Definition lemmatize_words (self : Preprocessing) : Preprocessing :=
  record (Call LemmatizeWords) (apply lemmatize_phrase self).

Definition create_bow (self : Preprocessing) : Preprocessing :=
  let b := value_counts (stack (expand (List.map split (df self)))) in
  record ToCsv (record (Call CreateBow) (set_bow b self)).

Definition count_types_and_tokens (self : Preprocessing) : Preprocessing :=
  let acc := fold_left count_tokens (df self) (types self, all_tokens self) in
  record (Call CountTypesAndTokens) (set_counts acc.1 acc.2 self).

Definition main (self : Preprocessing) : Preprocessing :=
  let self := lowercase self in
  let self := remove_numbers self in
  let self := remove_punctuation self in
  let self := if stop (inputs self) then remove_stopwords self else self in
  let self := if stem (inputs self) then stem_words self else self in
  let self := if lemma (inputs self) then lemmatize_words self else self in
  let self := create_bow self in
  let self := count_types_and_tokens self in
  record ToCsv self.

(** The part of [main] that runs whatever the flags are, on one cell. *)
Definition mandatory_cell (x : str) : str :=
  remove_punctuation_cell (remove_numbers_cell (lower x)).

(** *** Start of the program

    The outside: the command line, whether the output directory is
    there, whether [os.mkdir] raises when it is called for it, and the
    text column of data.csv as [read_csv] and [fillna('')] deliver it
    (the file is taken to be there and to have the column). *)
Record World : Type := {
  argv : list Argparse.option_string;
  output_dir_exists : bool;
  mkdir_fails : bool;
  data_csv : list str
}.

Inductive exception : Type := OSError.

Inductive outcome : Type :=
| Finished (self : Preprocessing)
| SystemExit (status : nat) (shown : Argparse.message) (done_ : list event)
| Raised (exc : exception) (done_ : list event).

(** [__init__]: the output directory, made if it is not there, then
    [parse_args], then the table. *)
Definition init (w : World) : Preprocessing + outcome :=
  if negb (output_dir_exists w) && mkdir_fails w then inr (Raised OSError []) else
  let started := if output_dir_exists w then [] else [Mkdir] in
  match Argparse.parse_args (argv w) with
  | Argparse.Exited status shown => inr (SystemExit status shown started)
  | Argparse.Parsed args =>
      inl {| inputs := args; df := data_csv w; all_tokens := ∅;
             types := ∅; bow := None; log := started ++ [ReadCsv] |}
  end.

(** The [__main__] block. *)
Definition run (w : World) : outcome :=
  match init w with
  | inl preprocessing_instance => Finished (main preprocessing_instance)
  | inr exit => exit
  end.

(** The object after the transforms of [main], before [create_bow]. *)
Definition transformed (self : Preprocessing) : Preprocessing :=
  let self := lowercase self in
  let self := remove_numbers self in
  let self := remove_punctuation self in
  let self := if stop (inputs self) then remove_stopwords self else self in
  let self := if stem (inputs self) then stem_words self else self in
  let self := if lemma (inputs self) then lemmatize_words self else self in
  self.

(** What a method does to one cell. *)
Definition stage_cell (m : method) : str -> str :=
  match m with
  | Lowercase => lower
  | RemoveNumbers => remove_numbers_cell
  | RemovePunctuation => remove_punctuation_cell
  | RemoveStopwords => remove_stop_words
  | StemWords => stem_phrase
  | LemmatizeWords => lemmatize_phrase
  | CreateBow | CountTypesAndTokens => fun x => x
  end.

(** A column taken through a list of stages, first stage first. *)
Definition through (ms : list method) (col : list str) : list str :=
  fold_left (fun col m => List.map (stage_cell m) col) ms col.

End Methods.

(** What the program has done when [parse_args] returns or exits: at most
    the creation of the output directory. *)
Definition before_parse (w : World) : list event :=
  if output_dir_exists w then [] else [Mkdir].

(** * Notions used in the statements *)

(** ** The three patterns, written directly *)

(** Whether the first character of a string is a word character; false for
    the empty string. *)
Definition starts_with_word (x : list ascii) : bool :=
  match x with
  | c :: _ => Re.word c
  | [] => false
  end.

(** [pattern] matches the character [c] between a neighbour on the left
    that is ([wl]) or is not a word character and one on the right
    ([wr]): a hyphen with no word character on either side, or a character
    that is neither a word character, whitespace nor a hyphen. *)
Definition hit (wl : bool) (c : ascii) (wr : bool) : bool :=
  (negb wl && Re.lit hyphen c && negb wr)
  || negb (Re.word c || Re.space c || Re.lit hyphen c).

(** The deletion step, written directly: [wl] tells whether the character
    to the left in the input is a word character. *)
Fixpoint strip_from (wl : bool) (x : str) : str :=
  match x with
  | [] => []
  | c :: rest =>
      if hit wl c (starts_with_word rest)
      then strip_from (Re.word c) rest
      else c :: strip_from (Re.word c) rest
  end.

(** The second step, written directly. *)
Fixpoint collapse_from (x : str) : str :=
  match x with
  | [] => []
  | c1 :: tl =>
      match tl with
      | c2 :: rest =>
          if Re.space c1 && Re.space c2 then " "%char :: collapse_from rest
          else c1 :: collapse_from tl
      | [] => [c1]
      end
  end.

Functional Scheme collapse_from_ind := Induction for collapse_from Sort Prop.

(** The length of the run of characters of [p] at the start of [x]: what
    [p+] takes there. *)
Fixpoint run_length (p : ascii -> bool) (x : list ascii) : nat :=
  match x with
  | c :: rest => if p c then S (run_length p rest) else 0
  | [] => 0
  end.

(** ** The rule of the deletion step, by position in the input *)

Definition word_at (x : str) (i : nat) : bool :=
  match x !! i with
  | Some c => Re.word c
  | None => false
  end.

Definition word_before (x : str) (i : nat) : bool :=
  match i with
  | O => false
  | S j => word_at x j
  end.

(** The character at position [i] stays when it is a word character
    (alphanumeric or underscore), or whitespace, or a hyphen with a word
    character immediately before it or immediately after it. *)
Definition survives (x : str) (i : nat) : bool :=
  match x !! i with
  | Some c =>
      Re.word c || Re.space c
      || (Re.lit hyphen c && (word_before x i || word_at x (S i)))
  | None => false
  end.

Definition survivors_from (x : str) (start len : nat) : str :=
  omap (fun i => if survives x i then x !! i else None) (seq start len).

Definition survivors (x : str) : str := survivors_from x 0 (length x).

(** A character that [remove_punctuation] can leave in a cell. *)
Definition permitted (c : ascii) : Prop :=
  Re.word c || Re.space c || Re.lit hyphen c = true.

Definition no_decimal_digit (x : str) : Prop :=
  Forall (fun c => Unicode.isdecimal c = false) x.

(** ** Strings that a second application leaves alone *)

(** A string on which [pattern] matches nowhere, read with a left
    neighbour that is ([wl]) or is not a word character. *)
Fixpoint clean (wl : bool) (y : str) : bool :=
  match y with
  | [] => true
  | c :: rest => negb (hit wl c (starts_with_word rest)) && clean (Re.word c) rest
  end.

Definition starts_with_space (x : list ascii) : bool :=
  match x with
  | c :: _ => Re.space c
  | [] => false
  end.

(** No two, and no three, whitespace characters in a row. *)
Fixpoint no_two_spaces (y : str) : bool :=
  match y with
  | [] => true
  | c :: rest => negb (Re.space c && starts_with_space rest) && no_two_spaces rest
  end.

Fixpoint no_three_spaces (y : str) : bool :=
  match y with
  | [] => true
  | c :: rest =>
      negb (Re.space c && starts_with_space rest && starts_with_space (tl rest))
      && no_three_spaces rest
  end.

(** ** The column, the log and the counts *)

(** A method that replaces the column by a column of the same length in
    which the cell of each row is a function of the cell that the row had
    before; the function is the same for all tables and rows. *)
Definition cellwise (transform : Preprocessing -> Preprocessing) : Prop :=
  exists f : str -> str, forall self : Preprocessing,
    length (df (transform self)) = length (df self)
    /\ forall i : nat, df (transform self) !! i = f <$> df self !! i.

(** The methods among the events of a log, in order. *)
Fixpoint methods_called (l : list event) : list method :=
  match l with
  | [] => []
  | Call m :: rest => m :: methods_called rest
  | _ :: rest => methods_called rest
  end.

(** The transforms that [main] is to run for given flags, in the order of
    the specification. *)
Definition stages (args : Namespace) : list method :=
  [Lowercase; RemoveNumbers; RemovePunctuation]
  ++ (if stop args then [RemoveStopwords] else [])
  ++ (if stem args then [StemWords] else [])
  ++ (if lemma args then [LemmatizeWords] else []).

(** The tokens of a column: the tokens of its rows, in row order. *)
Definition tokens_of (col : list str) : list str :=
  List.concat (List.map split col).

(** [sum(frequency_map.values())]. *)
Definition total (m : gmap str nat) : nat :=
  map_fold (fun _ n s => n + s) 0 m.

(** One more occurrence of [v] in a frequency map. *)
Definition bump_map (m : gmap str nat) (v : str) : gmap str nat :=
  match m !! v with
  | None => <[ v := 1 ]> m
  | Some n => <[ v := n + 1 ]> m
  end.

(** ** A small run, for the statements that need one *)

Definition no_resources : list str := [].

Definition example_stopwords : list str := [py "the"; py "a"].

Definition example_world : World :=
  {| argv := [Argparse.Flag Argparse.dest_stop true];
     output_dir_exists := true; mkdir_fails := false;
     data_csv := [py "The cat - the CAT!"; py ""; py "a cat"] |}.

(** The object that [__init__] makes of [example_world]. *)
Definition example_start : Preprocessing :=
  {| inputs := {| stop := true; stem := false; lemma := false |};
     df := data_csv example_world; all_tokens := ∅; types := ∅;
     bow := None; log := [ReadCsv] |}.

(** ** Tokens and tidy cells *)

Definition not_space (c : ascii) : Prop := Unicode.isspace c = false.

(** A token as [str.split()] returns them: not empty, no whitespace. *)
Definition token (t : str) : Prop := t <> [] /\ Forall not_space t.

Definition ends_with_space (y : str) : bool := starts_with_space (rev y).

(** A cell with no whitespace at either end and no two whitespace
    characters in a row, whose whitespace characters are all spaces. *)
Definition tidy (y : str) : Prop :=
  starts_with_space y = false
  /\ ends_with_space y = false
  /\ no_two_spaces y = true
  /\ Forall (fun c => Unicode.isspace c = true -> c = " "%char) y.

(** The test of [remove_stop_words]: the lowercase form of the word is not
    in the list. *)
Definition kept_word (stopwords_en : list str) (w : str) : bool :=
  negb (bool_decide (lower w ∈ stopwords_en)).

(** A stemmer for the examples: it cuts a final s off a longer word. *)
Definition cut_final_s (w : str) : str :=
  match rev w with
  | "s"%char :: _ :: _ => rev (tl (rev w))
  | _ => w
  end.

(** ** The command line, read as a whole *)

(** Some option string of [d] is on the command line. *)
Definition given (d : Argparse.dest) (argv : list Argparse.option_string) : Prop :=
  exists v, In (Argparse.Flag d v) argv.

(** The value of the last option string of [d], or [dflt] if there is
    none. *)
Fixpoint last_value (d : Argparse.dest) (argv : list Argparse.option_string)
    (dflt : bool) : bool :=
  match argv with
  | [] => dflt
  | Argparse.Flag d' v :: rest =>
      last_value d rest (if Argparse.dest_eqb d d' then v else dflt)
  | Argparse.Help :: rest => last_value d rest dflt
  end.

(** * Properties *)

(** ** The functions at work *)

Example strip_mid_word : strip_punctuation (py "well-known, no - yes!") = py "well-known no  yes".
Proof. vm_compute. reflexivity. Qed.

Example collapse_three : collapse_double_spaces (py "a   b") = py "a  b".
Proof. vm_compute. reflexivity. Qed.

Example numbers_serial : remove_numbers_cell (py "no. 59-4-2-25x") = py "no. ---x".
Proof. vm_compute. reflexivity. Qed.

Example split_example : split (py "  cats   running
 fast ") = [py "cats"; py "running"; py "fast"].
Proof. vm_compute. reflexivity. Qed.

Example parse_last_wins :
  Argparse.parse_args
    [Argparse.Flag Argparse.dest_stop true; Argparse.Flag Argparse.dest_lemma true;
     Argparse.Flag Argparse.dest_stop false]
  = Argparse.Parsed {| stop := false; stem := false; lemma := true |}.
Proof. reflexivity. Qed.

Example parse_no_stem_then_lemma :
  Argparse.parse_args
    [Argparse.Flag Argparse.dest_stem false; Argparse.Flag Argparse.dest_lemma true]
  = Argparse.Exited 2 (Argparse.NotAllowedWith Argparse.dest_lemma Argparse.dest_stem).
Proof. reflexivity. Qed.

Example bow_example :
  value_counts (tokens_of [py "cat a cat"; py ""; py "a cat b"])
  = [(py "cat", 3); (py "a", 2); (py "b", 1)].
Proof. vm_compute. reflexivity. Qed.

(** ** Characters *)

Ltac by_cases_on_char c :=
  destruct c as [[] [] [] [] [] [] [] []]; vm_compute; try reflexivity; try discriminate.

Lemma tolower_tolower (c : ascii) :
  Unicode.tolower (Unicode.tolower c) = Unicode.tolower c.
Proof. by_cases_on_char c. Qed.

Lemma space_not_word (c : ascii) : Re.space c = true -> Re.word c = false.
Proof. by_cases_on_char c. Qed.

Lemma hyphen_not_space : Re.space hyphen = false.
Proof. reflexivity. Qed.

Lemma lit_eq (x c : ascii) : Re.lit x c = true <-> c = x.
Proof.
  unfold Re.lit, ord. rewrite N.eqb_eq. split; [|congruence].
  intros H. rewrite <- (ascii_N_embedding c), <- (ascii_N_embedding x). congruence.
Qed.

Lemma lit_hyphen_not_word (c : ascii) : Re.lit hyphen c = true -> Re.word c = false.
Proof. intros H. apply lit_eq in H. subst c. reflexivity. Qed.

(** ** What the three patterns match *)

Local Arguments Re.word : simpl never.
Local Arguments Re.space : simpl never.
Local Arguments Re.digit : simpl never.
Local Arguments Re.lit : simpl never.

Lemma match_len_pattern (before : list ascii) (c : ascii) (rest : list ascii) :
  Re.match_len pattern before (c :: rest)
  = if hit (starts_with_word before) c (starts_with_word rest) then Some 1 else None.
Proof.
  assert (forall n, S n - n = 1) as Hsub by (intros; lia).
  unfold Re.match_len, pattern, hit.
  destruct (Re.lit hyphen c) eqn:Hh.
  - pose proof (lit_hyphen_not_word c Hh) as Hw.
    assert (Re.space c = false) as Hs.
    { apply lit_eq in Hh. subst c. reflexivity. }
    destruct before as [|b before]; [|destruct (Re.word b) eqn:Hb];
      (destruct rest as [|r rest]; [|destruct (Re.word r) eqn:Hr]);
      repeat (progress (cbn; rewrite ?Hh, ?Hw, ?Hs, ?Hb, ?Hr, ?Hsub));
      reflexivity.
  - destruct (Re.word c || Re.space c) eqn:Hc;
      (destruct before as [|b before]; [|destruct (Re.word b) eqn:Hb]);
      repeat (progress (cbn; rewrite ?Hh, ?Hc, ?Hb, ?Hsub));
      reflexivity.
Qed.

Lemma sub_pattern_strip_from (before : list ascii) (x : str) :
  Re.sub_from pattern (py "") before 0 x = strip_from (starts_with_word before) x.
Proof.
  revert before. induction x as [|c rest IH]; intros before; [reflexivity|].
  cbn [Re.sub_from strip_from]. rewrite match_len_pattern.
  destruct (hit _ c _); rewrite IH; reflexivity.
Qed.

Lemma strip_punctuation_strip_from (x : str) :
  strip_punctuation x = strip_from false x.
Proof. apply (sub_pattern_strip_from [] x). Qed.

(** [\s{2}] matches two whitespace characters. *)
Lemma match_len_double_space (before : list ascii) (x : list ascii) :
  Re.match_len double_space_re before x
  = match x with
    | c1 :: c2 :: _ => if Re.space c1 && Re.space c2 then Some 2 else None
    | _ => None
    end.
Proof.
  unfold Re.match_len, double_space_re. cbn [Re.ends flat_map app].
  destruct x as [|c1 [|c2 rest]]; [reflexivity| |].
  - destruct (Re.space c1); reflexivity.
  - destruct (Re.space c1); [|reflexivity]. cbn [flat_map app Re.ends].
    destruct (Re.space c2); cbn [andb length]; [|reflexivity].
    f_equal. lia.
Qed.

Lemma sub_double_space_collapse_from (x : str) :
  (forall before, Re.sub_from double_space_re (py " ") before 0 x = collapse_from x)
  /\ (forall before c,
        Re.sub_from double_space_re (py " ") before 0 (c :: x) = collapse_from (c :: x)).
Proof.
  induction x as [|c2 rest [IH0 IH1]].
  - split; [reflexivity|]. intros before c.
    cbn [Re.sub_from]. rewrite match_len_double_space. reflexivity.
  - split; [intros before; apply IH1|]. intros before c1.
    cbn [Re.sub_from]. rewrite match_len_double_space.
    cbn [collapse_from]. destruct (Re.space c1 && Re.space c2).
    + cbn [py list_ascii_of_string app]. fold (collapse_from rest).
      rewrite <- (IH0 (c2 :: c1 :: before)). reflexivity.
    + f_equal. apply IH1.
Qed.

Lemma collapse_double_spaces_collapse_from (x : str) :
  collapse_double_spaces x = collapse_from x.
Proof. apply (proj1 (sub_double_space_collapse_from x)). Qed.

Lemma runs_first (p : ascii -> bool) (after before : list ascii) :
  match Re.runs p before after with
  | [] => run_length p after = 0
  | (_, after') :: _ =>
      length after - length after' = run_length p after
      /\ 0 < run_length p after /\ length after' <= length after
  end.
Proof.
  revert before. induction after as [|c rest IH]; intros before; [reflexivity|].
  cbn [Re.runs run_length]. destruct (p c); [|reflexivity].
  specialize (IH (c :: before)).
  destruct (Re.runs p (c :: before) rest) as [|[b' a'] more].
  - cbn [app length]. rewrite IH. lia.
  - cbn [app length]. lia.
Qed.

Lemma match_len_plus (p : ascii -> bool) (before after : list ascii) :
  Re.match_len (Re.Plus p) before after
  = match run_length p after with O => None | S n => Some (S n) end.
Proof.
  unfold Re.match_len. cbn [Re.ends fst snd].
  pose proof (runs_first p after before) as H.
  destruct (Re.runs p before after) as [|[b' a'] more].
  - rewrite H. reflexivity.
  - destruct H as (H1 & H2 & _). rewrite H1.
    destruct (run_length p after); [lia|reflexivity].
Qed.

Lemma sub_plus_filter (p : ascii -> bool) (x : str) :
  forall before k, k <= run_length p x ->
    Re.sub_from (Re.Plus p) (py "") before k x
    = List.filter (fun c => negb (p c)) x.
Proof.
  induction x as [|c rest IH]; intros before k Hk; [reflexivity|].
  cbn [Re.sub_from List.filter]. destruct k as [|k].
  - rewrite match_len_plus. cbn [run_length].
    destruct (p c) eqn:Hp; cbn [negb].
    + cbn [py list_ascii_of_string app]. apply IH. lia.
    + f_equal. apply IH. lia.
  - cbn [run_length] in Hk. destruct (p c); [|lia].
    cbn [negb]. apply IH. lia.
Qed.

Lemma remove_numbers_cell_filter (x : str) :
  remove_numbers_cell x = List.filter (fun c => negb (Re.digit c)) x.
Proof. apply sub_plus_filter. lia. Qed.

(** ** What each step keeps *)

Lemma hit_not_word (wl wr : bool) (c : ascii) :
  hit wl c wr = true -> Re.word c = false.
Proof.
  unfold hit. destruct (Re.lit hyphen c) eqn:Hh.
  - intros _. apply lit_hyphen_not_word, Hh.
  - rewrite andb_false_r, orb_false_r. cbn [andb orb].
    destruct (Re.word c); [discriminate|reflexivity].
Qed.

Lemma hit_not_space (wl wr : bool) (c : ascii) :
  hit wl c wr = true -> Re.space c = false.
Proof.
  unfold hit. destruct (Re.lit hyphen c) eqn:Hh.
  - intros _. apply lit_eq in Hh. subst c. reflexivity.
  - rewrite andb_false_r, orb_false_r. cbn [andb orb].
    destruct (Re.word c), (Re.space c); (discriminate || reflexivity).
Qed.

(** The deletion step keeps the word characters, in order. *)
Lemma filter_strip_from (q : ascii -> bool) :
  (forall c, q c = true -> Re.word c = true) ->
  forall x wl, List.filter q (strip_from wl x) = List.filter q x.
Proof.
  intros Hq. induction x as [|c rest IH]; intros wl; [reflexivity|].
  cbn [strip_from List.filter].
  destruct (hit wl c (starts_with_word rest)) eqn:Hhit.
  - destruct (q c) eqn:Hc; [|apply IH].
    apply Hq in Hc. apply hit_not_word in Hhit. congruence.
  - cbn [List.filter]. rewrite IH. reflexivity.
Qed.

(** The second step changes whitespace only. *)
Lemma filter_collapse_from (q : ascii -> bool) :
  (forall c, q c = true -> Re.space c = false) ->
  forall x, List.filter q (collapse_from x) = List.filter q x.
Proof.
  intros Hq x. functional induction (collapse_from x); try reflexivity.
  - apply andb_prop in e1 as [H1 H2].
    assert (forall c, Re.space c = true -> q c = false) as Hn.
    { intros c Hc. destruct (q c) eqn:E; [|reflexivity]. apply Hq in E. congruence. }
    cbn [List.filter]. rewrite (Hn c1 H1), (Hn c2 H2), (Hn " "%char eq_refl).
    exact IHl.
  - cbn [List.filter] in *. rewrite IHl. reflexivity.
Qed.

(** ** The rule of the deletion step and the pattern agree *)

Lemma hit_survives (wl wr : bool) (c : ascii) :
  negb (hit wl c wr)
  = Re.word c || Re.space c || (Re.lit hyphen c && (wl || wr)).
Proof.
  unfold hit. destruct (Re.lit hyphen c) eqn:Hh.
  - rewrite (lit_hyphen_not_word c Hh).
    apply lit_eq in Hh. subst c. rewrite hyphen_not_space.
    destruct wl, wr; reflexivity.
  - rewrite !andb_false_r, !orb_false_r. cbn [andb orb]. apply negb_involutive.
Qed.

Lemma word_at_middle (pre : str) (c : ascii) (rest : str) :
  word_at (pre ++ c :: rest) (length pre) = Re.word c.
Proof. unfold word_at. rewrite list_lookup_middle; reflexivity. Qed.

Lemma word_at_after (pre : str) (c : ascii) (rest : str) :
  word_at (pre ++ c :: rest) (S (length pre)) = starts_with_word rest.
Proof.
  unfold word_at.
  replace (pre ++ c :: rest) with ((pre ++ [c]) ++ rest)
    by (rewrite <- app_assoc; reflexivity).
  replace (S (length pre)) with (length (pre ++ [c]))
    by (rewrite length_app; cbn; lia).
  destruct rest as [|r rest].
  - rewrite lookup_ge_None_2; [reflexivity|]. rewrite app_nil_r. lia.
  - rewrite list_lookup_middle; reflexivity.
Qed.

Lemma survivors_from_succ (x : str) (start len : nat) :
  survivors_from x start (S len)
  = match (if survives x start then x !! start else None) with
    | Some c => c :: survivors_from x (S start) len
    | None => survivors_from x (S start) len
    end.
Proof. reflexivity. Qed.

Lemma strip_from_survivors (suf pre : str) :
  strip_from (word_before (pre ++ suf) (length pre)) suf
  = survivors_from (pre ++ suf) (length pre) (length suf).
Proof.
  revert pre. induction suf as [|c rest IH]; intros pre; [reflexivity|].
  cbn [strip_from length]. rewrite survivors_from_succ.
  specialize (IH (pre ++ [c])).
  rewrite <- app_assoc in IH. cbn [app] in IH.
  replace (length (pre ++ [c])) with (S (length pre)) in IH
    by (rewrite length_app; cbn; lia).
  cbn [word_before] in IH. rewrite word_at_middle in IH.
  unfold survives. rewrite list_lookup_middle by reflexivity.
  rewrite word_at_after, <- hit_survives.
  destruct (hit _ c _); cbn [negb]; rewrite IH; reflexivity.
Qed.

Lemma strip_punctuation_survivors (x : str) : strip_punctuation x = survivors x.
Proof.
  rewrite strip_punctuation_strip_from. apply (strip_from_survivors x []).
Qed.

Lemma permitted_strip_from (x : str) :
  forall wl, Forall permitted (strip_from wl x).
Proof.
  induction x as [|c rest IH]; intros wl; [constructor|].
  cbn [strip_from]. destruct (hit wl c (starts_with_word rest)) eqn:Hhit; [apply IH|].
  constructor; [|apply IH]. unfold permitted.
  pose proof (hit_survives wl (starts_with_word rest) c) as H.
  rewrite Hhit in H. cbn [negb] in H.
  destruct (Re.word c), (Re.space c), (Re.lit hyphen c); auto; discriminate.
Qed.

Lemma permitted_collapse_from (y : str) :
  Forall permitted y -> Forall permitted (collapse_from y).
Proof.
  functional induction (collapse_from y); intros H; try exact H.
  - constructor; [reflexivity|]. apply IHl.
    apply Forall_cons_1 in H as [_ H]. apply Forall_cons_1 in H as [_ H]. exact H.
  - apply Forall_cons_1 in H as [H1 H2]. constructor; [exact H1|apply IHl, H2].
Qed.

Lemma permitted_remove_punctuation_cell (x : str) :
  Forall permitted (remove_punctuation_cell x).
Proof.
  unfold remove_punctuation_cell.
  rewrite collapse_double_spaces_collapse_from, strip_punctuation_strip_from.
  apply permitted_collapse_from, permitted_strip_from.
Qed.

(** ** C1: what [remove_punctuation] deletes *)

(** C1, as stated, fails: on ["-a_b-"] nothing is deleted, although the
    underscore is neither alphanumeric, whitespace nor a hyphen, and
    neither the leading nor the trailing hyphen has word characters on
    both sides. *)
Lemma C1_remove_punctuation_keeps_underscore_and_outer_hyphens :
  remove_punctuation_cell (py "-a_b-") = py "-a_b-"
  /\ Unicode.isalnum "_"%char = false
  /\ Unicode.isspace "_"%char = false
  /\ Re.lit hyphen "_"%char = false
  /\ word_before (py "-a_b-") 0 = false
  /\ word_at (py "-a_b-") 5 = false.
Proof. vm_compute. repeat split. Qed.

(** C1 (amended): for every input string, the deletion step of
    [remove_punctuation] keeps exactly the characters that are word
    characters (alphanumeric or underscore), whitespace, or hyphens with a
    word character immediately before or immediately after them in the
    input, in their order; every other character, among them every hyphen
    with no word character on either side, is deleted.  The second step
    leaves the characters that are not whitespace as they are, so every
    character of the result is a word character, whitespace or a hyphen. *)
Theorem C1_remove_punctuation_deletes (x : str) :
  strip_punctuation x = survivors x
  /\ List.filter (fun c => negb (Re.space c)) (remove_punctuation_cell x)
     = List.filter (fun c => negb (Re.space c)) (survivors x)
  /\ Forall permitted (remove_punctuation_cell x).
Proof.
  split; [apply strip_punctuation_survivors|].
  split; [|apply permitted_remove_punctuation_cell].
  unfold remove_punctuation_cell.
  rewrite collapse_double_spaces_collapse_from, strip_punctuation_survivors.
  apply filter_collapse_from. intros c Hc. destruct (Re.space c); [discriminate|reflexivity].
Qed.

(** ** C10: underscores *)

(** C10: for every input string, [remove_punctuation] leaves the
    underscores of the input in place: the output has the same underscores
    as the input, although an underscore is neither alphanumeric,
    whitespace nor a hyphen. *)
Theorem C10_remove_punctuation_keeps_underscores (x : str) :
  List.filter (Re.lit "_"%char) (remove_punctuation_cell x)
  = List.filter (Re.lit "_"%char) x
  /\ Unicode.isalnum "_"%char = false
  /\ Unicode.isspace "_"%char = false
  /\ "_"%char <> hyphen.
Proof.
  split; [|repeat split; discriminate].
  unfold remove_punctuation_cell.
  rewrite collapse_double_spaces_collapse_from, strip_punctuation_strip_from.
  rewrite filter_collapse_from, filter_strip_from; [reflexivity| |];
    intros c Hc; apply lit_eq in Hc; subst c; reflexivity.
Qed.

(** ** C6: [remove_numbers] *)

(** C6: for every input string, the output of [remove_numbers] on it
    contains no decimal digit; so after the method no cell of the column
    contains one. *)
Theorem C6_remove_numbers_no_digit (x : str) (self : Preprocessing) :
  no_decimal_digit (remove_numbers_cell x)
  /\ Forall no_decimal_digit (df (remove_numbers self)).
Proof.
  assert (forall y, no_decimal_digit (remove_numbers_cell y)) as H.
  { intros y. rewrite remove_numbers_cell_filter. unfold no_decimal_digit.
    rewrite Forall_forall. intros c Hc. apply list_elem_of_In, filter_In in Hc.
    destruct Hc as [_ Hc]. apply negb_true_iff in Hc. exact Hc. }
  split; [apply H|].
  cbn. rewrite Forall_forall. intros y Hy.
  apply list_elem_of_In, in_map_iff in Hy. destruct Hy as (y0 & <- & _). apply H.
Qed.

(** ** C8: the example of the comment in [main] *)

(** C8, as stated, fails: the three mandatory stages do not turn
    ["AD 1530-1"] into ["ad"]. *)
Lemma C8_mandatory_stages_not_ad :
  mandatory_cell (py "AD 1530-1") <> py "ad".
Proof. vm_compute. discriminate. Qed.

(** C8 (amended): lowercase, then remove-numbers, then remove-punctuation
    turn ["AD 1530-1"] into ["ad "], the letters a, d and one space (the
    space before the year stays, nothing trims it); its only token is
    ["ad"]. *)
Theorem C8_mandatory_stages_example :
  lower (py "AD 1530-1") = py "ad 1530-1"
  /\ remove_numbers_cell (py "ad 1530-1") = py "ad -"
  /\ remove_punctuation_cell (py "ad -") = py "ad "
  /\ mandatory_cell (py "AD 1530-1") = py "ad "
  /\ split (mandatory_cell (py "AD 1530-1")) = [py "ad"].
Proof. vm_compute. repeat split. Qed.

(** ** C7: applying a transform twice *)

Lemma lower_lower (x : str) : lower (lower x) = lower x.
Proof.
  unfold lower. rewrite List.map_map. apply List.map_ext, tolower_tolower.
Qed.

Lemma strip_from_clean (y : str) :
  forall wl, clean wl y = true -> strip_from wl y = y.
Proof.
  induction y as [|c rest IH]; intros wl H; [reflexivity|].
  cbn [clean strip_from] in *. apply andb_prop in H as [H1 H2].
  apply negb_true_iff in H1. rewrite H1, (IH _ H2). reflexivity.
Qed.

Lemma hit_left_word (wl wr : bool) (c : ascii) :
  hit false c wr = false -> hit wl c wr = false.
Proof. unfold hit. destruct wl, wr, (Re.lit hyphen c), (Re.word c), (Re.space c); auto. Qed.

Lemma clean_left_word (wl : bool) (y : str) :
  clean false y = true -> clean wl y = true.
Proof.
  destruct y as [|c rest]; [reflexivity|]. cbn [clean]. intros H.
  apply andb_prop in H as [H1 H2]. apply negb_true_iff in H1.
  rewrite (hit_left_word wl _ _ H1), H2. reflexivity.
Qed.

Lemma starts_with_word_strip_from (wl : bool) (x : str) :
  starts_with_word x = true -> starts_with_word (strip_from wl x) = true.
Proof.
  destruct x as [|c rest]; [discriminate|]. cbn [starts_with_word strip_from].
  intros Hc. destruct (hit wl c _) eqn:Hhit; [|exact Hc].
  apply hit_not_word in Hhit. congruence.
Qed.

Lemma clean_strip_from (x : str) : forall wl, clean wl (strip_from wl x) = true.
Proof.
  induction x as [|c rest IH]; intros wl; [reflexivity|].
  cbn [strip_from]. destruct (hit wl c (starts_with_word rest)) eqn:Hhit.
  - apply clean_left_word. rewrite <- (hit_not_word _ _ _ Hhit). apply IH.
  - cbn [clean]. rewrite IH, andb_true_r. apply negb_true_iff.
    destruct (starts_with_word rest) eqn:Hr.
    + rewrite (starts_with_word_strip_from _ _ Hr). exact Hhit.
    + revert Hhit. unfold hit.
      destruct wl, (starts_with_word (strip_from (Re.word c) rest)),
        (Re.lit hyphen c), (Re.word c), (Re.space c); auto.
Qed.

Lemma starts_with_word_collapse_from (y : str) :
  starts_with_word (collapse_from y) = starts_with_word y.
Proof.
  destruct y as [|c1 [|c2 rest]]; try reflexivity.
  cbn [collapse_from]. destruct (Re.space c1 && Re.space c2) eqn:E; [|reflexivity].
  apply andb_prop in E as [E1 _]. cbn [starts_with_word].
  rewrite (space_not_word c1 E1). reflexivity.
Qed.

Lemma hit_space (wl wr : bool) (c : ascii) :
  Re.space c = true -> hit wl c wr = false.
Proof.
  intros Hs. destruct (hit wl c wr) eqn:E; [|reflexivity].
  apply hit_not_space in E. congruence.
Qed.

Lemma clean_collapse_from (y : str) :
  forall wl, clean wl y = true -> clean wl (collapse_from y) = true.
Proof.
  functional induction (collapse_from y); intros wl H; try exact H.
  - apply andb_prop in e1 as [H1 H2].
    cbn [clean] in H. apply andb_prop in H as [_ H]. apply andb_prop in H as [_ H].
    rewrite (space_not_word c2 H2) in H.
    cbn [clean]. rewrite (hit_space wl _ " "%char eq_refl).
    apply (IHl false H).
  - cbn [clean] in *. apply andb_prop in H as [Ha Hb].
    rewrite starts_with_word_collapse_from, Ha. apply (IHl _ Hb).
Qed.

Lemma strip_punctuation_twice (x : str) :
  strip_punctuation (strip_punctuation x) = strip_punctuation x.
Proof.
  rewrite !strip_punctuation_strip_from. apply strip_from_clean, clean_strip_from.
Qed.

(** A second application only repeats the double-space step. *)
Lemma remove_punctuation_cell_twice (x : str) :
  remove_punctuation_cell (remove_punctuation_cell x)
  = collapse_double_spaces (remove_punctuation_cell x).
Proof.
  unfold remove_punctuation_cell at 1. f_equal.
  unfold remove_punctuation_cell.
  rewrite collapse_double_spaces_collapse_from, !strip_punctuation_strip_from.
  apply strip_from_clean, clean_collapse_from, clean_strip_from.
Qed.

Lemma collapse_from_fixed (z : str) :
  no_two_spaces z = true -> collapse_from z = z.
Proof.
  induction z as [|c1 rest IH]; [reflexivity|].
  cbn [no_two_spaces]. intros H. apply andb_prop in H as [H1 H2].
  destruct rest as [|c2 rest]; [reflexivity|].
  cbn [starts_with_space] in H1. apply negb_true_iff in H1.
  change (collapse_from (c1 :: c2 :: rest))
    with (if Re.space c1 && Re.space c2 then " "%char :: collapse_from rest
          else c1 :: collapse_from (c2 :: rest)).
  rewrite H1, (IH H2). reflexivity.
Qed.

Lemma starts_with_space_collapse_from (y : str) :
  starts_with_space (collapse_from y) = starts_with_space y.
Proof.
  destruct y as [|c1 [|c2 rest]]; try reflexivity.
  cbn [collapse_from]. destruct (Re.space c1 && Re.space c2) eqn:E; [|reflexivity].
  apply andb_prop in E as [E1 _]. cbn [starts_with_space]. rewrite E1. reflexivity.
Qed.

Lemma no_two_spaces_collapse_from (y : str) :
  no_three_spaces y = true -> no_two_spaces (collapse_from y) = true.
Proof.
  functional induction (collapse_from y); intros H; try reflexivity.
  - cbn [no_two_spaces starts_with_space]. rewrite andb_false_r. reflexivity.
  - apply andb_prop in e1 as [H1 H2].
    cbn [no_three_spaces starts_with_space tl] in H.
    apply andb_prop in H as [Ha H]. apply andb_prop in H as [_ H].
    rewrite H1, H2 in Ha. cbn [andb] in Ha. apply negb_true_iff in Ha.
    cbn [no_two_spaces]. rewrite starts_with_space_collapse_from, Ha, (IHl H).
    rewrite andb_false_r. reflexivity.
  - cbn [no_three_spaces] in H. apply andb_prop in H as [_ H].
    cbn [no_two_spaces]. rewrite starts_with_space_collapse_from, (IHl H).
    cbn [starts_with_space]. rewrite e1. reflexivity.
Qed.

(** C7, as stated, fails for [remove_punctuation]: on a run of three
    spaces the first application leaves two spaces and the second one. *)
Lemma C7_remove_punctuation_not_idempotent :
  remove_punctuation_cell (py "a   b") = py "a  b"
  /\ remove_punctuation_cell (remove_punctuation_cell (py "a   b")) = py "a b"
  /\ remove_punctuation_cell (remove_punctuation_cell (py "a   b"))
     <> remove_punctuation_cell (py "a   b").
Proof. vm_compute. repeat split. discriminate. Qed.

(** C7 (amended): for every input string, applying [lowercase] twice
    yields the same result as applying it once, and so does the deletion
    step of [remove_punctuation]; applying [remove_punctuation] twice yields
    the same result as applying it once for every input string that, once
    its punctuation is deleted, has no three whitespace characters in a
    row. *)
Theorem C7_twice_is_once (x : str) :
  lower (lower x) = lower x
  /\ strip_punctuation (strip_punctuation x) = strip_punctuation x
  /\ (no_three_spaces (strip_punctuation x) = true ->
      remove_punctuation_cell (remove_punctuation_cell x)
      = remove_punctuation_cell x).
Proof.
  split; [apply lower_lower|]. split; [apply strip_punctuation_twice|].
  intros H. rewrite remove_punctuation_cell_twice.
  rewrite collapse_double_spaces_collapse_from. apply collapse_from_fixed.
  unfold remove_punctuation_cell. rewrite collapse_double_spaces_collapse_from.
  apply no_two_spaces_collapse_from, H.
Qed.

(** The statement above at a string with a double space and two lone
    hyphens. *)
Lemma C7_twice_is_once_witness :
  no_three_spaces (strip_punctuation (py "Hello,  world -- ok")) = true
  /\ remove_punctuation_cell (remove_punctuation_cell (py "Hello,  world -- ok"))
     = remove_punctuation_cell (py "Hello,  world -- ok").
Proof.
  split; [vm_compute; reflexivity|].
  apply (proj2 (proj2 (C7_twice_is_once (py "Hello,  world -- ok")))).
  vm_compute. reflexivity.
Defined.

(** ** C9: every transform works cell by cell *)

Lemma lookup_map (f : str -> str) (col : list str) (i : nat) :
  List.map f col !! i = f <$> col !! i.
Proof.
  revert i. induction col as [|x col IH]; intros [|i]; try reflexivity.
  apply (IH i).
Qed.

Lemma apply_cellwise (f : str -> str) (self : Preprocessing) :
  length (df (apply f self)) = length (df self)
  /\ forall i : nat, df (apply f self) !! i = f <$> df self !! i.
Proof. cbn. split; [apply length_map|apply lookup_map]. Qed.

(** C9: each of the six transforms maps the column to a column of the same
    length, and the cell at each row index after the transform is a
    function of the cell at the same index before it: no row is dropped,
    added or moved. *)
Theorem C9_transforms_cellwise (stopwords_en : list str)
    (stemmer_stem lemmatizer_lemmatize : str -> str) :
  cellwise lowercase
  /\ cellwise remove_numbers
  /\ cellwise remove_punctuation
  /\ cellwise (remove_stopwords stopwords_en)
  /\ cellwise (stem_words stemmer_stem)
  /\ cellwise (lemmatize_words lemmatizer_lemmatize).
Proof.
  repeat split.
  - exists lower. intros self. apply apply_cellwise.
  - exists remove_numbers_cell. intros self. apply apply_cellwise.
  - exists remove_punctuation_cell. intros self. cbn.
    rewrite List.map_map. split; [apply length_map|apply lookup_map].
  - exists (remove_stop_words stopwords_en). intros self. apply apply_cellwise.
  - exists (stem_phrase stemmer_stem). intros self. apply apply_cellwise.
  - exists (lemmatize_phrase lemmatizer_lemmatize). intros self. apply apply_cellwise.
Qed.

(** ** C2: the order of the stages *)

Lemma methods_called_app (l1 l2 : list event) :
  methods_called (l1 ++ l2) = methods_called l1 ++ methods_called l2.
Proof.
  induction l1 as [|[| |m|] l1 IH]; cbn; rewrite ?IH; reflexivity.
Qed.

Create Rewrite HintDb calls.
#[local] Hint Rewrite methods_called_app : calls.

Section Order.

Variable stopwords_en : list str.
Variable stemmer_stem : str -> str.
Variable lemmatizer_lemmatize : str -> str.

(** C2: whatever the flags, [main] runs lowercase, remove-numbers,
    remove-punctuation, then stopword removal if [stop] is set, then
    stemming if [stem] is set, then lemmatization if [lemma] is set, in
    this order and no other, before the bag of words and the count; the
    column it leaves is the column taken through these stages in this
    order. *)
Theorem C2_main_order (self : Preprocessing) :
  let after := main stopwords_en stemmer_stem lemmatizer_lemmatize self in
  methods_called (log after)
  = methods_called (log self) ++ stages (inputs self)
    ++ [CreateBow; CountTypesAndTokens]
  /\ df after = through stopwords_en stemmer_stem lemmatizer_lemmatize (stages (inputs self)) (df self).
Proof.
  destruct self as [[[] [] []] col tk ty b l]; cbn;
    (split; [autorewrite with calls; cbn; rewrite <- ?app_assoc; reflexivity|]);
    rewrite ?List.map_map; reflexivity.
Qed.

End Order.

(** ** C3: [--stem] together with [--lemma] *)

Import Argparse.

Lemma existsb_dest (d : dest) (seen : list dest) :
  existsb (dest_eqb d) seen = true <-> In d seen.
Proof.
  rewrite existsb_exists. split.
  - intros (d' & Hin & Heq). destruct d, d'; try discriminate; exact Hin.
  - intros Hin. exists d. split; [exact Hin|]. destruct d; reflexivity.
Qed.

Lemma given_nil (d : dest) : ~ given d [].
Proof. intros [v []]. Qed.

Lemma given_cons_help (d : dest) (rest : list option_string) :
  given d (Help :: rest) <-> given d rest.
Proof.
  unfold given. split; intros [v H]; exists v.
  - destruct H as [H|H]; [discriminate|exact H].
  - right. exact H.
Qed.

Lemma given_cons_flag (d d' : dest) (v' : bool) (rest : list option_string) :
  given d (Flag d' v' :: rest) <-> d' = d \/ given d rest.
Proof.
  unfold given. split.
  - intros [v [H|H]]; [left; congruence|right; exists v; exact H].
  - intros [->|[v H]]; [exists v'; left; reflexivity|exists v; right; exact H].
Qed.

(** With both members of the group on the rest of the command line or
    among the arguments seen, and not both seen already, parsing stops at
    the first [-h] or at the first option of the group that meets the
    other member, whichever comes first: [pre] is what the parser takes
    before it stops. *)
Lemma consume_stops (rest : list option_string) :
  forall (seen : list dest) (ns : Namespace),
    (In dest_stem seen \/ given dest_stem rest) ->
    (In dest_lemma seen \/ given dest_lemma rest) ->
    ~ (In dest_stem seen /\ In dest_lemma seen) ->
    exists pre post,
      ~ In Help pre
      /\ ~ ((In dest_stem seen \/ given dest_stem pre)
            /\ (In dest_lemma seen \/ given dest_lemma pre))
      /\ ((exists d other v,
             rest = pre ++ Flag d v :: post
             /\ conflict d = Some other
             /\ (In other seen \/ given other pre)
             /\ consume rest seen ns = Exited 2 (NotAllowedWith d other))
          \/ (rest = pre ++ Help :: post
              /\ consume rest seen ns = Exited 0 HelpText)).
Proof.
  induction rest as [|o rest IH]; intros seen ns Hs Hl Hboth.
  - exfalso. apply Hboth. split.
    + destruct Hs as [?|H]; [assumption|destruct (given_nil _ H)].
    + destruct Hl as [?|H]; [assumption|destruct (given_nil _ H)].
  - destruct o as [|d v].
    { exists [], rest. split; [intros []|]. split.
      - intros [[?|H1] [?|H2]]; try (apply Hboth; split; assumption);
          first [destruct (given_nil _ H1)|destruct (given_nil _ H2)].
      - right. split; reflexivity. }
    assert (forall d0, given d0 (Flag d v :: rest) -> d = d0 \/ given d0 rest) as Hg
      by (intros d0 H; apply given_cons_flag in H; exact H).
    assert (forall pre post,
              ~ In Help pre ->
              ~ ((In dest_stem (d :: seen) \/ given dest_stem pre)
                 /\ (In dest_lemma (d :: seen) \/ given dest_lemma pre)) ->
              ((exists d1 other v1,
                  rest = pre ++ Flag d1 v1 :: post
                  /\ conflict d1 = Some other
                  /\ (In other (d :: seen) \/ given other pre)
                  /\ consume rest (d :: seen) (setattr d v ns)
                     = Exited 2 (NotAllowedWith d1 other))
               \/ (rest = pre ++ Help :: post
                   /\ consume rest (d :: seen) (setattr d v ns) = Exited 0 HelpText)) ->
              consume (Flag d v :: rest) seen ns
              = consume rest (d :: seen) (setattr d v ns) ->
              exists pre' post',
                ~ In Help pre'
                /\ ~ ((In dest_stem seen \/ given dest_stem pre')
                      /\ (In dest_lemma seen \/ given dest_lemma pre'))
                /\ ((exists d1 other v1,
                       Flag d v :: rest = pre' ++ Flag d1 v1 :: post'
                       /\ conflict d1 = Some other
                       /\ (In other seen \/ given other pre')
                       /\ consume (Flag d v :: rest) seen ns
                          = Exited 2 (NotAllowedWith d1 other))
                    \/ (Flag d v :: rest = pre' ++ Help :: post'
                        /\ consume (Flag d v :: rest) seen ns = Exited 0 HelpText)))
      as Hstep.
    { intros pre post Hh Hnot Hcase Heq. exists (Flag d v :: pre), post.
      split; [intros [H|H]; [discriminate|exact (Hh H)]|]. split.
      - intros [H1 H2]. apply Hnot. split.
        + destruct H1 as [H1|H1]; [left; right; exact H1|].
          apply given_cons_flag in H1 as [->|H1]; [left; left; reflexivity|right; exact H1].
        + destruct H2 as [H2|H2]; [left; right; exact H2|].
          apply given_cons_flag in H2 as [->|H2]; [left; left; reflexivity|right; exact H2].
      - rewrite Heq. destruct Hcase as [(d1 & other & v1 & E & Hc & Ho & Hr)|[E Hr]].
        + left. exists d1, other, v1.
          split; [rewrite E; reflexivity|]. split; [exact Hc|]. split; [|exact Hr].
          destruct Ho as [[<-|Ho]|Ho].
          * right. apply given_cons_flag. left. reflexivity.
          * left. exact Ho.
          * right. apply given_cons_flag. right. exact Ho.
        + right. split; [rewrite E; reflexivity|exact Hr]. }
    assert (forall other, conflict d = Some other -> In other seen ->
              exists pre' post',
                ~ In Help pre'
                /\ ~ ((In dest_stem seen \/ given dest_stem pre')
                      /\ (In dest_lemma seen \/ given dest_lemma pre'))
                /\ ((exists d1 other1 v1,
                       Flag d v :: rest = pre' ++ Flag d1 v1 :: post'
                       /\ conflict d1 = Some other1
                       /\ (In other1 seen \/ given other1 pre')
                       /\ Exited 2 (NotAllowedWith d other)
                          = Exited 2 (NotAllowedWith d1 other1))
                    \/ (Flag d v :: rest = pre' ++ Help :: post'
                        /\ Exited 2 (NotAllowedWith d other) = Exited 0 HelpText)))
      as Hnow.
    { intros other Hc Hin. exists [], rest. split; [intros []|]. split.
      - intros [[?|H1] [?|H2]]; try (apply Hboth; split; assumption);
          first [destruct (given_nil _ H1)|destruct (given_nil _ H2)].
      - left. exists d, other, v. repeat split; [exact Hc|left; exact Hin]. }
    destruct d.
    + destruct (IH (dest_stop :: seen) (setattr dest_stop v ns))
        as (pre & post & Hh & Hnot & Hcase).
      * destruct Hs as [H|H]; [left; right; exact H|].
        destruct (Hg _ H) as [?|?]; [discriminate|right; assumption].
      * destruct Hl as [H|H]; [left; right; exact H|].
        destruct (Hg _ H) as [?|?]; [discriminate|right; assumption].
      * intros [[?|?] [?|?]]; try discriminate. apply Hboth. split; assumption.
      * apply (Hstep pre post Hh Hnot Hcase). reflexivity.
    + destruct (existsb (dest_eqb dest_lemma) seen) eqn:E.
      * assert (consume (Flag dest_stem v :: rest) seen ns
                = Exited 2 (NotAllowedWith dest_stem dest_lemma)) as ->
          by (cbn [consume conflict]; rewrite E; reflexivity).
        apply existsb_dest in E. apply (Hnow dest_lemma eq_refl E).
      * assert (~ In dest_lemma seen) as Hn
          by (intros Hin; apply existsb_dest in Hin; congruence).
        destruct (IH (dest_stem :: seen) (setattr dest_stem v ns))
          as (pre & post & Hh & Hnot & Hcase).
        -- left. left. reflexivity.
        -- destruct Hl as [H|H]; [left; right; exact H|].
           destruct (Hg _ H) as [?|?]; [discriminate|right; assumption].
        -- intros [_ [?|?]]; [discriminate|contradiction].
        -- apply (Hstep pre post Hh Hnot Hcase). cbn [consume conflict].
           rewrite E. reflexivity.
    + destruct (existsb (dest_eqb dest_stem) seen) eqn:E.
      * assert (consume (Flag dest_lemma v :: rest) seen ns
                = Exited 2 (NotAllowedWith dest_lemma dest_stem)) as ->
          by (cbn [consume conflict]; rewrite E; reflexivity).
        apply existsb_dest in E. apply (Hnow dest_stem eq_refl E).
      * assert (~ In dest_stem seen) as Hn
          by (intros Hin; apply existsb_dest in Hin; congruence).
        destruct (IH (dest_lemma :: seen) (setattr dest_lemma v ns))
          as (pre & post & Hh & Hnot & Hcase).
        -- destruct Hs as [H|H]; [left; right; exact H|].
           destruct (Hg _ H) as [?|?]; [discriminate|right; assumption].
        -- left. left. reflexivity.
        -- intros [[?|?] _]; [discriminate|contradiction].
        -- apply (Hstep pre post Hh Hnot Hcase). cbn [consume conflict].
           rewrite E. reflexivity.
Qed.

Section Start.

Variable stopwords_en : list str.
Variable stemmer_stem : str -> str.
Variable lemmatizer_lemmatize : str -> str.

(** C3 (amended): on a command line made of the declared option strings
    written in full, with [--stem] and [--lemma] both on it, the program
    never reads data.csv and never runs a method of the pipeline.  Unless
    the output directory is missing and [os.mkdir] fails (an [OSError]
    before [parse_args]), it ends inside [parse_args], where the parser
    stops at the first [-h]/[--help] or at the first option of the group
    ([--stem], [--no-stem], [--lemma], [--no-lemma]) that meets an
    option of the other member given before it, whichever comes first:
    with the help text and status 0 in the first case, with the usage
    error "not allowed with argument" and status 2 in the second.  [pre]
    is the command line up to that point. *)
Theorem C3_stem_and_lemma_rejected (w : World)
    (Hstem : In (Flag dest_stem true) (argv w))
    (Hlemma : In (Flag dest_lemma true) (argv w)) :
  (output_dir_exists w = false /\ mkdir_fails w = true
   /\ run stopwords_en stemmer_stem lemmatizer_lemmatize w = Raised OSError [])
  \/ ((output_dir_exists w = true \/ mkdir_fails w = false)
      /\ ~ In ReadCsv (before_parse w)
      /\ methods_called (before_parse w) = []
      /\ exists pre post,
           ~ In Help pre
           /\ ~ (given dest_stem pre /\ given dest_lemma pre)
           /\ ((exists d other v,
                  argv w = pre ++ Flag d v :: post
                  /\ conflict d = Some other
                  /\ given other pre
                  /\ run stopwords_en stemmer_stem lemmatizer_lemmatize w
                     = SystemExit 2 (NotAllowedWith d other) (before_parse w))
               \/ (argv w = pre ++ Help :: post
                   /\ run stopwords_en stemmer_stem lemmatizer_lemmatize w
                      = SystemExit 0 HelpText (before_parse w)))).
Proof.
  assert (~ In ReadCsv (before_parse w) /\ methods_called (before_parse w) = [])
    as [Hread Hcalls].
  { unfold before_parse. destruct (output_dir_exists w); cbn; split; auto.
    intros [H|[]]. discriminate. }
  destruct (consume_stops (argv w) [] defaults) as (pre & post & Hh & Hnot & Hcase).
  { right. exists true. exact Hstem. }
  { right. exists true. exact Hlemma. }
  { intros [[] _]. }
  unfold run, init. fold (before_parse w). fold (parse_args (argv w)) in Hcase.
  destruct (output_dir_exists w) eqn:E1; [|destruct (mkdir_fails w) eqn:E2];
    cbn [negb andb]; [right|left; auto|right];
    (split; [auto|]); (split; [exact Hread|]); (split; [exact Hcalls|]);
    exists pre, post; (split; [exact Hh|]); (split; [tauto|]);
    (destruct Hcase as [(d & other & v & E & Hc & Ho & Hr)|[E Hr]];
     [left; exists d, other, v; rewrite Hr;
      repeat split; try assumption; destruct Ho as [[]|Ho]; exact Ho
     |right; rewrite Hr; split; [exact E|reflexivity]]).
Qed.

End Start.

(** C3, as stated, fails: with [-h] first the program shows the help and
    exits with status 0, although both flags are given. *)
Lemma C3_help_first_exits_zero :
  run no_resources id id
    {| argv := [Help; Flag dest_stem true; Flag dest_lemma true];
       output_dir_exists := true; mkdir_fails := false;
       data_csv := [py "AD 1530-1"] |}
  = SystemExit 0 HelpText [].
Proof. reflexivity. Qed.

(** The statement above at [--stop --stem --lemma -h], without the output
    directory: the help comes too late. *)
Lemma C3_stem_and_lemma_rejected_witness :
  let w := {| argv := [Flag dest_stop true; Flag dest_stem true;
                       Flag dest_lemma true; Help];
              output_dir_exists := false; mkdir_fails := false;
              data_csv := [py "AD 1530-1"] |} in
  In (Flag dest_stem true) (argv w)
  /\ In (Flag dest_lemma true) (argv w)
  /\ run no_resources id id w
     = SystemExit 2 (NotAllowedWith dest_lemma dest_stem) [Mkdir]
  /\ exists pre post,
       ~ In Help pre
       /\ ~ (given dest_stem pre /\ given dest_lemma pre)
       /\ ((exists d other v,
              argv w = pre ++ Flag d v :: post
              /\ conflict d = Some other
              /\ given other pre
              /\ run no_resources id id w
                 = SystemExit 2 (NotAllowedWith d other) (before_parse w))
           \/ (argv w = pre ++ Help :: post
               /\ run no_resources id id w
                  = SystemExit 0 HelpText (before_parse w))).
Proof.
  intros w.
  assert (In (Flag dest_stem true) (argv w)) as Hs by (cbn; auto).
  assert (In (Flag dest_lemma true) (argv w)) as Hl by (cbn; auto).
  split; [exact Hs|]. split; [exact Hl|]. split; [reflexivity|].
  destruct (C3_stem_and_lemma_rejected no_resources id id w Hs Hl)
    as [(_ & H & _)|(_ & _ & _ & H)]; [discriminate H|exact H].
Defined.


(** ** The token accountant and the bag of words *)

Lemma count_token_eq (acc : gset str * gmap str nat) (token : str) :
  count_token acc token = ({[ token ]} ∪ acc.1, bump_map acc.2 token).
Proof. unfold count_token, bump_map. destruct (acc.2 !! token); reflexivity. Qed.

Lemma fold_count_token (ts : list str) :
  forall acc : gset str * gmap str nat,
    fold_left count_token ts acc
    = (list_to_set ts ∪ acc.1, fold_left bump_map ts acc.2).
Proof.
  induction ts as [|t ts IH]; intros [ty m]; cbn [fold_left].
  - cbn. f_equal. symmetry. apply (left_id_L ∅ (∪)).
  - rewrite IH, count_token_eq. cbn [fst snd]. f_equal.
    rewrite list_to_set_cons, (comm_L (∪) {[ t ]} (list_to_set ts)).
    apply (assoc_L (∪)).
Qed.

Lemma fold_count_tokens (col : list str) :
  forall acc : gset str * gmap str nat,
    fold_left count_tokens col acc = fold_left count_token (tokens_of col) acc.
Proof.
  induction col as [|x col IH]; intros acc; [reflexivity|].
  cbn [fold_left]. rewrite IH. unfold tokens_of. cbn [List.map List.concat].
  rewrite fold_left_app. reflexivity.
Qed.

Lemma total_add_comm (j1 j2 : str) (z1 z2 y : nat) :
  z1 + (z2 + y) = z2 + (z1 + y).
Proof. lia. Qed.

Lemma total_insert_fresh (m : gmap str nat) (v : str) (n : nat) :
  m !! v = None -> total (<[ v := n ]> m) = n + total m.
Proof.
  intros H. unfold total. apply map_fold_insert_L; [|exact H].
  intros. apply total_add_comm; assumption.
Qed.

Lemma total_delete (m : gmap str nat) (v : str) (n : nat) :
  m !! v = Some n -> total m = n + total (delete v m).
Proof.
  intros H. unfold total.
  apply (map_fold_delete_L (fun _ n s => n + s) 0 v n m); [|exact H].
  intros. apply total_add_comm; assumption.
Qed.

Lemma total_bump_map (m : gmap str nat) (v : str) :
  total (bump_map m v) = total m + 1.
Proof.
  unfold bump_map. destruct (m !! v) as [n|] eqn:E.
  - rewrite <- insert_delete_eq, total_insert_fresh by apply lookup_delete_eq.
    rewrite (total_delete m v n E). lia.
  - rewrite total_insert_fresh by exact E. lia.
Qed.

Lemma total_fold_bump_map (ts : list str) :
  forall m, total (fold_left bump_map ts m) = total m + length ts.
Proof.
  induction ts as [|t ts IH]; intros m; cbn [fold_left length]; [lia|].
  rewrite IH, total_bump_map. lia.
Qed.



(** *** The bag of words counts as the accountant does *)

Lemma omap_id_pad (row : list str) (k : nat) :
  omap id (List.map Some row ++ replicate k None) = row.
Proof.
  induction row as [|x row IH]; cbn.
  - induction k as [|k IHk]; [reflexivity|exact IHk].
  - f_equal. exact IH.
Qed.

Lemma stack_expand (rows : list (list str)) :
  stack (expand rows) = List.concat rows.
Proof.
  unfold stack, expand. rewrite List.map_map. f_equal.
  rewrite <- (List.map_id rows) at 2. apply List.map_ext. intros row.
  apply omap_id_pad.
Qed.






Global Instance by_count_desc_total : Total by_count_desc.
Proof. intros a b. unfold by_count_desc. lia. Qed.

Global Instance by_count_desc_trans : Transitive by_count_desc.
Proof. intros a b c. unfold by_count_desc. lia. Qed.


Section Accounting.

Variable stopwords_en : list str.
Variable stemmer_stem : str -> str.
Variable lemmatizer_lemmatize : str -> str.

Lemma main_transformed (self : Preprocessing) :
  main stopwords_en stemmer_stem lemmatizer_lemmatize self
  = record ToCsv
      (count_types_and_tokens
         (create_bow (transformed stopwords_en stemmer_stem lemmatizer_lemmatize self))).
Proof. reflexivity. Qed.

Lemma transformed_counters (self : Preprocessing) :
  all_tokens (transformed stopwords_en stemmer_stem lemmatizer_lemmatize self) = all_tokens self
  /\ types (transformed stopwords_en stemmer_stem lemmatizer_lemmatize self) = types self.
Proof. destruct self as [[[] [] []] col tk ty b l]; split; reflexivity. Qed.

(** What [main] leaves in an object whose counters are empty, as
    [__init__] makes them. *)
Lemma main_counts (self : Preprocessing) :
  all_tokens self = ∅ -> types self = ∅ ->
  let after := main stopwords_en stemmer_stem lemmatizer_lemmatize self in
  df after = df (transformed stopwords_en stemmer_stem lemmatizer_lemmatize self)
  /\ types after = list_to_set (tokens_of (df after))
  /\ all_tokens after = fold_left bump_map (tokens_of (df after)) ∅
  /\ bow after = Some (value_counts (tokens_of (df after))).
Proof.
  intros Htk Hty after. subst after. rewrite main_transformed.
  destruct (transformed_counters self) as [Htk' Hty'].
  rewrite Htk in Htk'. rewrite Hty in Hty'.
  cbn [record count_types_and_tokens create_bow set_counts set_bow
         df types all_tokens bow].
  rewrite fold_count_tokens, fold_count_token. cbn [fst snd].
  rewrite Htk', Hty', stack_expand. fold (tokens_of (df (transformed stopwords_en stemmer_stem lemmatizer_lemmatize self))).
  repeat split. apply (right_id_L ∅ (∪)).
Qed.




End Accounting.



(** * Further properties of the methods *)

(** ** [split] and [join] *)

Lemma split_from_tokens (x : str) :
  forall cur, Forall not_space cur -> Forall token (split_from cur x).
Proof.
  induction x as [|c rest IH]; intros cur Hcur; cbn [split_from].
  - destruct cur as [|c0 cur]; [constructor|].
    constructor; [split; [discriminate|exact Hcur]|constructor].
  - destruct (Unicode.isspace c) eqn:Hc.
    + destruct cur as [|c0 cur]; [apply IH; constructor|].
      constructor; [split; [discriminate|exact Hcur]|apply IH; constructor].
    + apply IH. apply Forall_app. split; [exact Hcur|].
      constructor; [exact Hc|constructor].
Qed.

Lemma split_tokens (x : str) : Forall token (split x).
Proof. apply split_from_tokens. constructor. Qed.

Lemma split_from_word (t : str) :
  Forall not_space t ->
  forall cur rest, split_from cur (t ++ rest) = split_from (cur ++ t) rest.
Proof.
  induction 1 as [|c t Hc _ IH]; intros cur rest.
  - rewrite app_nil_r. reflexivity.
  - cbn [app split_from]. rewrite Hc, IH, <- app_assoc. reflexivity.
Qed.

Lemma split_join (ws : list str) :
  Forall token ws -> split (join (py " ") ws) = ws.
Proof.
  induction 1 as [|w ws [Hne Hw] Hws IH]; [reflexivity|].
  unfold split. destruct ws as [|w2 ws].
  - cbn [join]. rewrite <- (app_nil_r w) at 1.
    rewrite (split_from_word w Hw). cbn. destruct w; [contradiction|reflexivity].
  - change (join (py " ") (w :: w2 :: ws))
      with (w ++ " "%char :: join (py " ") (w2 :: ws)).
    rewrite (split_from_word w Hw). cbn [app split_from].
    change (Unicode.isspace " "%char) with true. cbn iota.
    destruct w as [|c w]; [contradiction|]. f_equal. exact IH.
Qed.

Lemma filter_filter_same {A : Type} (f : A -> bool) (l : list A) :
  List.filter f (List.filter f l) = List.filter f l.
Proof.
  induction l as [|a l IH]; [reflexivity|]. cbn [List.filter].
  destruct (f a) eqn:E; [|exact IH]. cbn [List.filter]. rewrite E, IH. reflexivity.
Qed.

Lemma Forall_filter_keep {A : Type} (P : A -> Prop) (f : A -> bool) (l : list A) :
  Forall P l -> Forall P (List.filter f l).
Proof.
  induction 1 as [|a l Ha _ IH]; [constructor|]. cbn [List.filter].
  destruct (f a); [constructor; assumption|exact IH].
Qed.

Lemma token_starts_without_space (w : str) :
  token w -> starts_with_space w = false.
Proof.
  intros [Hne Hw]. destruct Hw as [|c w Hc _]; [contradiction|exact Hc].
Qed.

Lemma starts_with_space_app (a b : str) :
  a <> [] -> starts_with_space (a ++ b) = starts_with_space a.
Proof. destruct a; [contradiction|reflexivity]. Qed.

Lemma ends_with_space_app (a b : str) :
  b <> [] -> ends_with_space (a ++ b) = ends_with_space b.
Proof.
  intros Hb. unfold ends_with_space. rewrite rev_app_distr.
  apply starts_with_space_app. intros E. apply Hb.
  rewrite <- (rev_involutive b), E. reflexivity.
Qed.

Lemma token_ends_without_space (w : str) :
  token w -> ends_with_space w = false.
Proof.
  intros [Hne Hw]. unfold ends_with_space.
  assert (Forall not_space (rev w)) as Hr by (apply Forall_rev; exact Hw).
  destruct Hr as [|c r Hc _]; [reflexivity|exact Hc].
Qed.

Lemma join_not_empty (ws : list str) :
  ws <> [] -> Forall token ws -> join (py " ") ws <> [].
Proof.
  intros Hne Hws. destruct Hws as [|w ws [Hw _] _]; [contradiction|].
  destruct w as [|c w]; [contradiction|]. destruct ws; discriminate.
Qed.

Lemma no_two_spaces_word_app (w y : str) :
  Forall not_space w -> no_two_spaces (w ++ y) = no_two_spaces y.
Proof.
  induction 1 as [|c w Hc _ IH]; [reflexivity|].
  cbn [app no_two_spaces]. unfold Re.space at 1. rewrite Hc. exact IH.
Qed.

Lemma tidy_join (ws : list str) :
  Forall token ws -> tidy (join (py " ") ws).
Proof.
  induction 1 as [|w ws Hw Hws IH]; [repeat split; constructor|].
  destruct ws as [|w2 ws].
  - cbn [join]. repeat split.
    + apply token_starts_without_space, Hw.
    + apply token_ends_without_space, Hw.
    + rewrite <- (app_nil_r w), no_two_spaces_word_app; [reflexivity|apply Hw].
    + eapply Forall_impl; [apply Hw|]. unfold not_space. intros c H1 H2. congruence.
  - change (join (py " ") (w :: w2 :: ws))
      with (w ++ " "%char :: join (py " ") (w2 :: ws)).
    destruct IH as (IH1 & IH2 & IH3 & IH4).
    assert (join (py " ") (w2 :: ws) <> []) as Hne
      by (apply join_not_empty; [discriminate|exact Hws]).
    repeat split.
    + rewrite starts_with_space_app by apply Hw.
      apply token_starts_without_space, Hw.
    + change (w ++ " "%char :: join (py " ") (w2 :: ws))
        with (w ++ [" "%char] ++ join (py " ") (w2 :: ws)).
      rewrite app_assoc, ends_with_space_app by exact Hne. exact IH2.
    + rewrite no_two_spaces_word_app by apply Hw.
      cbn [no_two_spaces]. rewrite IH1, IH3, andb_false_r. reflexivity.
    + apply Forall_app. split.
      * eapply Forall_impl; [apply Hw|]. unfold not_space. intros c H1 H2. congruence.
      * constructor; [reflexivity|exact IH4].
Qed.

(** ** [remove_stopwords], [stem_words], [lemmatize_words] on one cell *)

Lemma split_remove_stop_words (stopwords_en : list str) (phrase : str) :
  split (remove_stop_words stopwords_en phrase)
  = List.filter (kept_word stopwords_en) (split phrase).
Proof.
  unfold remove_stop_words. apply split_join, Forall_filter_keep, split_tokens.
Qed.

(** The tokens of the cell that [remove_stop_words] returns are the tokens
    of the phrase whose lowercase form is not in the stopword list, in
    their order; the lowercase form of none of them is in the list, so
    none of them is, up to letter case, an entry of the list that is
    written in lowercase (for an entry with a capital letter nothing is
    said: it can stay); and a second application changes nothing. *)
Theorem remove_stop_words_tokens (stopwords_en : list str) (phrase : str) :
  split (remove_stop_words stopwords_en phrase)
  = List.filter (kept_word stopwords_en) (split phrase)
  /\ Forall (fun t => lower t ∉ stopwords_en)
       (split (remove_stop_words stopwords_en phrase))
  /\ Forall (fun t => forall s, s ∈ stopwords_en -> lower s = s -> lower t <> lower s)
       (split (remove_stop_words stopwords_en phrase))
  /\ remove_stop_words stopwords_en (remove_stop_words stopwords_en phrase)
     = remove_stop_words stopwords_en phrase.
Proof.
  assert (split (remove_stop_words stopwords_en phrase)
          = List.filter (kept_word stopwords_en) (split phrase)) as Hsplit
    by apply split_remove_stop_words.
  assert (Forall (fun t => lower t ∉ stopwords_en)
            (split (remove_stop_words stopwords_en phrase))) as Hnone.
  { rewrite Hsplit, Forall_forall. intros t Ht.
    apply list_elem_of_In, filter_In in Ht. destruct Ht as [_ Ht].
    unfold kept_word in Ht. apply negb_true_iff, bool_decide_eq_false in Ht. exact Ht. }
  split; [exact Hsplit|]. split; [exact Hnone|]. split.
  - eapply Forall_impl; [exact Hnone|]. intros t Ht s Hs Hlow E.
    apply Ht. rewrite E, Hlow. exact Hs.
  - unfold remove_stop_words at 1. cbv zeta. fold (kept_word stopwords_en).
    rewrite Hsplit, filter_filter_same. reflexivity.
Qed.

(** Whatever the phrase, the cell that [remove_stop_words] returns has no
    whitespace at its ends, no two whitespace characters in a row and no
    whitespace other than spaces; so the double-space step of
    [remove_punctuation] would leave it as it is. *)
Theorem remove_stop_words_tidy (stopwords_en : list str) (phrase : str) :
  tidy (remove_stop_words stopwords_en phrase)
  /\ collapse_double_spaces (remove_stop_words stopwords_en phrase)
     = remove_stop_words stopwords_en phrase.
Proof.
  assert (tidy (remove_stop_words stopwords_en phrase)) as H.
  { apply tidy_join, Forall_filter_keep, split_tokens. }
  split; [exact H|]. rewrite collapse_double_spaces_collapse_from.
  apply collapse_from_fixed, H.
Qed.

(** [stem_phrase] and [lemmatize_phrase] are the same function of the
    stemmer or lemmatizer: when it turns every token of the phrase into a
    token (not empty, no whitespace), the tokens of the result are the
    images of the tokens of the phrase, one for one and in order, and the
    result is tidy. *)
Theorem stem_phrase_tokens (f : str -> str) (phrase : str)
    (Hf : Forall (fun w => token (f w)) (split phrase)) :
  lemmatize_phrase f phrase = stem_phrase f phrase
  /\ split (stem_phrase f phrase) = List.map f (split phrase)
  /\ length (split (stem_phrase f phrase)) = length (split phrase)
  /\ tidy (stem_phrase f phrase).
Proof.
  assert (Forall token (List.map f (split phrase))) as Ht.
  { rewrite Forall_forall. intros t Hin.
    apply list_elem_of_In, in_map_iff in Hin. destruct Hin as (w & <- & Hw).
    rewrite Forall_forall in Hf. apply Hf, list_elem_of_In, Hw. }
  split; [reflexivity|]. unfold stem_phrase. cbv zeta.
  rewrite (split_join _ Ht), length_map.
  split; [reflexivity|]. split; [reflexivity|]. apply tidy_join, Ht.
Qed.

(** The statement above for a stemmer that cuts a final s. *)
Lemma stem_phrase_tokens_witness :
  Forall (fun w => token (cut_final_s w)) (split (py " cats  runs s "))
  /\ split (stem_phrase cut_final_s (py " cats  runs s "))
     = List.map cut_final_s (split (py " cats  runs s ")).
Proof.
  assert (Forall (fun w => token (cut_final_s w)) (split (py " cats  runs s "))) as H.
  { vm_compute. repeat constructor; discriminate. }
  split; [exact H|].
  exact (proj1 (proj2 (stem_phrase_tokens cut_final_s (py " cats  runs s ") H))).
Defined.

(** ** [parse_args] as a whole *)

Lemma namespace_eta (ns : Namespace) :
  ns = {| stop := stop ns; stem := stem ns; lemma := lemma ns |}.
Proof. destruct ns; reflexivity. Qed.

(** [consume] returns arguments exactly when no help is asked for and the
    two members of the group do not meet; the arguments are then the last
    values given. *)
Lemma consume_parsed (argv : list option_string) :
  forall (seen : list dest) (ns0 ns : Namespace),
    ~ (In dest_stem seen /\ In dest_lemma seen) ->
    consume argv seen ns0 = Parsed ns
    <-> ~ In Help argv
        /\ ~ ((In dest_stem seen \/ given dest_stem argv)
              /\ (In dest_lemma seen \/ given dest_lemma argv))
        /\ ns = {| stop := last_value dest_stop argv (stop ns0);
                   stem := last_value dest_stem argv (stem ns0);
                   lemma := last_value dest_lemma argv (lemma ns0) |}.
Proof.
  induction argv as [|o rest IH]; intros seen ns0 ns Hseen.
  - cbn [consume last_value]. rewrite <- namespace_eta.
    pose proof (given_nil dest_stem). pose proof (given_nil dest_lemma).
    split.
    + intros H1. injection H1 as <-. repeat split; [intros []|tauto].
    + intros (_ & _ & ->). reflexivity.
  - destruct o as [|d v].
    + split; [discriminate|]. intros (H & _). exfalso. apply H. left. reflexivity.
    + cbn [consume]. destruct d; cbn [conflict].
      * rewrite IH by (cbn [In]; intuition discriminate).
        rewrite !given_cons_flag. cbn [In last_value dest_eqb setattr stop stem lemma].
        intuition (discriminate || auto).
      * destruct (existsb (dest_eqb dest_lemma) seen) eqn:E.
        -- apply existsb_dest in E. rewrite !given_cons_flag.
           split; [discriminate|]. intuition auto.
        -- assert (~ In dest_lemma seen) as Hn
             by (intros Hin; apply existsb_dest in Hin; congruence).
           rewrite IH by (cbn [In]; intuition discriminate).
           rewrite !given_cons_flag.
           cbn [In last_value dest_eqb setattr stop stem lemma].
           intuition (discriminate || auto).
      * destruct (existsb (dest_eqb dest_stem) seen) eqn:E.
        -- apply existsb_dest in E. rewrite !given_cons_flag.
           split; [discriminate|]. intuition auto.
        -- assert (~ In dest_stem seen) as Hn
             by (intros Hin; apply existsb_dest in Hin; congruence).
           rewrite IH by (cbn [In]; intuition discriminate).
           rewrite !given_cons_flag.
           cbn [In last_value dest_eqb setattr stop stem lemma].
           intuition (discriminate || auto).
Qed.

Lemma last_value_true (d : dest) (argv : list option_string) :
  forall dflt, last_value d argv dflt = true -> dflt = true \/ given d argv.
Proof.
  induction argv as [|[|d' v] rest IH]; intros dflt H; cbn [last_value] in H.
  - left. exact H.
  - destruct (IH _ H) as [?|?]; [left; assumption|right].
    apply given_cons_help. assumption.
  - destruct (IH _ H) as [Hd|Hg].
    + destruct (dest_eqb d d') eqn:E; [|left; exact Hd].
      right. apply given_cons_flag. left. destruct d, d'; (discriminate || reflexivity).
    + right. apply given_cons_flag. right. exact Hg.
Qed.

Lemma parse_args_parsed (argv : list option_string) (ns : Namespace) :
  parse_args argv = Parsed ns
  <-> ~ In Help argv
      /\ ~ (given dest_stem argv /\ given dest_lemma argv)
      /\ ns = {| stop := last_value dest_stop argv false;
                 stem := last_value dest_stem argv false;
                 lemma := last_value dest_lemma argv false |}.
Proof.
  unfold parse_args. rewrite consume_parsed by (intros [[] _]).
  cbn [In defaults stop stem lemma]. tauto.
Qed.

(** Among the command lines made only of the declared option strings
    written in full ([-h]/[--help] and [--x], [--no-x] for stop, stem and
    lemma), [parse_args] returns arguments exactly for those without
    [-h]/[--help] on which not both a stem and a lemma option string
    stand (in either form, [--x] or [--no-x]); each flag then has the
    value of its last option string, or [False] without one. *)
Theorem parse_args_parsed_iff (argv : list option_string) (ns : Namespace) :
  parse_args argv = Parsed ns
  <-> ~ In Help argv
      /\ ~ (given dest_stem argv /\ given dest_lemma argv)
      /\ ns = {| stop := last_value dest_stop argv false;
                 stem := last_value dest_stem argv false;
                 lemma := last_value dest_lemma argv false |}.
Proof. exact (parse_args_parsed argv ns). Qed.

(** The arguments that [parse_args] returns never have [stem] and [lemma]
    both set: stemming and lemmatization are mutually exclusive. *)
Theorem parse_args_exclusive (argv : list option_string) (ns : Namespace)
    (Hparsed : parse_args argv = Parsed ns) :
  stem ns && lemma ns = false.
Proof.
  apply parse_args_parsed in Hparsed as (_ & Hnot & ->).
  cbn [stem lemma].
  destruct (last_value dest_stem argv false) eqn:Hs; [|reflexivity].
  destruct (last_value dest_lemma argv false) eqn:Hl; [|reflexivity].
  exfalso. apply Hnot. split.
  - destruct (last_value_true _ _ _ Hs); [discriminate|assumption].
  - destruct (last_value_true _ _ _ Hl); [discriminate|assumption].
Qed.

Lemma parse_args_exclusive_witness :
  parse_args [Flag dest_stem true; Flag dest_stop true; Flag dest_stem false]
  = Parsed {| stop := true; stem := false; lemma := false |}
  /\ stem {| stop := true; stem := false; lemma := false |}
     && lemma {| stop := true; stem := false; lemma := false |} = false.
Proof.
  assert (parse_args [Flag dest_stem true; Flag dest_stop true; Flag dest_stem false]
          = Parsed {| stop := true; stem := false; lemma := false |}) as H
    by reflexivity.
  split; [exact H|]. exact (parse_args_exclusive _ _ H).
Defined.

(** ** The token accountant on any state *)

Lemma split_from_nil (x : str) :
  forall cur, split_from cur x = []
              <-> cur = [] /\ Forall (fun c => Unicode.isspace c = true) x.
Proof.
  induction x as [|c rest IH]; intros cur; cbn [split_from].
  - destruct cur; split; try discriminate; auto.
    intros [? _]. discriminate.
  - destruct (Unicode.isspace c) eqn:Hc.
    + destruct cur as [|c0 cur].
      * rewrite IH. split; intros [H1 H2]; split; auto.
        apply Forall_cons_1 in H2. apply H2.
      * split; [discriminate|]. intros [? _]. discriminate.
    + rewrite IH. split.
      * intros [H _]. destruct cur; discriminate.
      * intros [_ H]. apply Forall_cons_1 in H as [H _]. congruence.
Qed.

(** [count_tokens] leaves the type set and the frequency map as they are
    exactly on the sentences that are empty or all whitespace. *)
Theorem count_tokens_unchanged_iff (acc : gset str * gmap str nat) (sentence : str) :
  count_tokens acc sentence = acc
  <-> Forall (fun c => Unicode.isspace c = true) sentence.
Proof.
  unfold count_tokens. rewrite fold_count_token. split.
  - intros H. apply (f_equal (fun a => total a.2)) in H. cbn [snd] in H.
    rewrite total_fold_bump_map in H.
    assert (split sentence = []) as Hs by (destruct (split sentence); [reflexivity|cbn in H; lia]).
    apply split_from_nil in Hs. apply Hs.
  - intros H. assert (split sentence = []) as -> by (apply split_from_nil; auto).
    cbn. destruct acc as [ty tk]. cbn. f_equal. apply (left_id_L ∅ (∪)).
Qed.

Lemma bump_map_lookup_le (m : gmap str nat) (v t : str) (n : nat) :
  m !! t = Some n -> exists n', bump_map m v !! t = Some n' /\ n <= n'.
Proof.
  intros H. unfold bump_map. destruct (decide (v = t)) as [->|Hne].
  - rewrite H, lookup_insert_eq. exists (n + 1). split; [reflexivity|lia].
  - exists n. split; [|lia].
    destruct (m !! v); rewrite lookup_insert_ne by exact Hne; exact H.
Qed.

Lemma fold_bump_map_lookup_le (ts : list str) :
  forall (m : gmap str nat) (t : str) (n : nat),
    m !! t = Some n ->
    exists n', fold_left bump_map ts m !! t = Some n' /\ n <= n'.
Proof.
  induction ts as [|v ts IH]; intros m t n H; cbn [fold_left].
  - exists n. split; [exact H|lia].
  - destruct (bump_map_lookup_le m v t n H) as (n1 & H1 & Hle).
    destruct (IH _ t n1 H1) as (n2 & H2 & Hle2). exists n2. split; [exact H2|lia].
Qed.

Lemma count_types_and_tokens_eq (self : Preprocessing) :
  df (count_types_and_tokens self) = df self
  /\ types (count_types_and_tokens self)
     = list_to_set (tokens_of (df self)) ∪ types self
  /\ all_tokens (count_types_and_tokens self)
     = fold_left bump_map (tokens_of (df self)) (all_tokens self).
Proof.
  unfold count_types_and_tokens.
  cbn [record set_counts df types all_tokens].
  rewrite fold_count_tokens, fold_count_token. repeat split.
Qed.

(** [count_types_and_tokens] adds to what the object holds, from whatever
    state: the counts grow by the number of tokens of the column, no type
    is lost, no count goes down; the counters are never reset, so a second
    call counts every token of the column once more. *)
Theorem count_types_and_tokens_accumulates (self : Preprocessing) :
  let once := count_types_and_tokens self in
  let twice := count_types_and_tokens once in
  total (all_tokens once)
  = total (all_tokens self) + length (tokens_of (df self))
  /\ types self ⊆ types once
  /\ (forall t n, all_tokens self !! t = Some n ->
        exists n', all_tokens once !! t = Some n' /\ n <= n')
  /\ total (all_tokens twice)
     = total (all_tokens self) + 2 * length (tokens_of (df self)).
Proof.
  intros once twice.
  destruct (count_types_and_tokens_eq self) as (Hdf & Hty & Htk).
  destruct (count_types_and_tokens_eq once) as (_ & _ & Htk2).
  fold once in Hdf, Hty, Htk. fold twice in Htk2.
  split; [rewrite Htk; apply total_fold_bump_map|].
  split; [rewrite Hty; apply union_subseteq_r|].
  split; [intros t n H; rewrite Htk; apply fold_bump_map_lookup_le, H|].
  rewrite Htk2, total_fold_bump_map, Htk, total_fold_bump_map, Hdf. lia.
Qed.

Lemma dom_bump_map (m : gmap str nat) (v : str) :
  dom (bump_map m v) = {[ v ]} ∪ dom m.
Proof. unfold bump_map. destruct (m !! v); apply dom_insert_L. Qed.

Lemma dom_fold_bump_map (ts : list str) :
  forall m : gmap str nat,
    dom (fold_left bump_map ts m) = list_to_set ts ∪ dom m.
Proof.
  induction ts as [|v ts IH]; intros m; cbn [fold_left].
  - cbn. symmetry. apply (left_id_L ∅ (∪)).
  - rewrite IH, dom_bump_map, list_to_set_cons,
      (comm_L (∪) {[ v ]} (list_to_set ts)).
    apply (assoc_L (∪)).
Qed.



Section Consistency.

Variable stopwords_en : list str.
Variable stemmer_stem : str -> str.
Variable lemmatizer_lemmatize : str -> str.


(** The column that the program writes has one row for each row of the
    table it read, whatever the flags. *)
Theorem run_keeps_rows (w : World) (self : Preprocessing)
    (Hrun : run stopwords_en stemmer_stem lemmatizer_lemmatize w = Finished self) :
  length (df self) = length (data_csv w).
Proof.
  unfold run, init in Hrun.
  destruct (negb (output_dir_exists w) && mkdir_fails w); [discriminate|].
  destruct (parse_args (argv w)) as [[[] [] []]|]; [..|discriminate];
    injection Hrun as <-; cbn; rewrite !length_map; reflexivity.
Qed.

End Consistency.


Lemma run_keeps_rows_witness :
  let self := main example_stopwords id id example_start in
  run example_stopwords id id example_world = Finished self
  /\ length (df self) = length (data_csv example_world).
Proof.
  intros self.
  assert (run example_stopwords id id example_world = Finished self) as Hrun
    by reflexivity.
  split; [exact Hrun|].
  exact (run_keeps_rows example_stopwords id id example_world self Hrun).
Defined.

(** ** More on the three mandatory stages *)

(** [remove_numbers] deletes the decimal digits and nothing else: the
    other characters stay, in their order; a second application changes
    nothing. *)
Theorem remove_numbers_deletes_digits_only (x : str) :
  remove_numbers_cell x = List.filter (fun c => negb (Unicode.isdecimal c)) x
  /\ remove_numbers_cell (remove_numbers_cell x) = remove_numbers_cell x.
Proof.
  split; [apply remove_numbers_cell_filter|].
  rewrite !remove_numbers_cell_filter. apply filter_filter_same.
Qed.

Lemma word_at_second (c : ascii) (rest : str) :
  word_at (c :: rest) 1 = starts_with_word rest.
Proof. destruct rest; reflexivity. Qed.

Lemma clean_hyphen_attached (y : str) :
  forall (wl : bool) (i : nat),
    clean wl y = true -> y !! i = Some hyphen ->
    match i with O => wl | S j => word_at y j end || word_at y (S i) = true.
Proof.
  induction y as [|c rest IH]; intros wl i Hclean Hi; [destruct i; discriminate|].
  cbn [clean] in Hclean. apply andb_prop in Hclean as [Hhit Hrest].
  destruct i as [|j].
  - injection Hi as ->. apply negb_true_iff in Hhit.
    rewrite word_at_second. revert Hhit. unfold hit.
    change (Re.lit hyphen hyphen) with true.
    destruct wl, (starts_with_word rest); cbn; auto.
  - change ((c :: rest) !! S j) with (rest !! j) in Hi.
    specialize (IH (Re.word c) j Hrest Hi).
    change (word_at (c :: rest) (S (S j))) with (word_at rest (S j)).
    destruct j as [|k]; exact IH.
Qed.

(** Every hyphen that [remove_punctuation] leaves in a cell has a word
    character immediately before it or immediately after it in the
    result: no hyphen stands alone, and no token is made of hyphens
    only. *)
Theorem remove_punctuation_hyphens_attached (x : str) (i : nat)
    (Hi : remove_punctuation_cell x !! i = Some hyphen) :
  word_before (remove_punctuation_cell x) i
  || word_at (remove_punctuation_cell x) (S i) = true.
Proof.
  assert (clean false (remove_punctuation_cell x) = true) as Hclean.
  { unfold remove_punctuation_cell.
    rewrite collapse_double_spaces_collapse_from, strip_punctuation_strip_from.
    apply clean_collapse_from, clean_strip_from. }
  pose proof (clean_hyphen_attached _ false i Hclean Hi) as H.
  destruct i; exact H.
Qed.

Lemma remove_punctuation_hyphens_attached_witness :
  remove_punctuation_cell (py "well-known - x") !! 4 = Some hyphen
  /\ word_before (remove_punctuation_cell (py "well-known - x")) 4
     || word_at (remove_punctuation_cell (py "well-known - x")) 5 = true.
Proof.
  assert (remove_punctuation_cell (py "well-known - x") !! 4 = Some hyphen) as H
    by (vm_compute; reflexivity).
  split; [exact H|].
  exact (remove_punctuation_hyphens_attached (py "well-known - x") 4 H).
Defined.

Lemma collapse_from_app (x z : str) :
  ends_with_space x = false ->
  collapse_from (x ++ z) = collapse_from x ++ collapse_from z.
Proof.
  functional induction (collapse_from x); intros Hx.
  - reflexivity.
  - change (ends_with_space [c1]) with (Re.space c1) in Hx.
    destruct z as [|c2 rest]; [reflexivity|].
    change (collapse_from ([c1] ++ c2 :: rest))
      with (if Re.space c1 && Re.space c2 then " "%char :: collapse_from rest
            else c1 :: collapse_from (c2 :: rest)).
    rewrite Hx. reflexivity.
  - apply andb_prop in e1 as [H1 H2].
    destruct rest as [|c3 rest].
    + change (ends_with_space [c1; c2]) with (Re.space c2) in Hx. congruence.
    + change (c1 :: c2 :: c3 :: rest) with ([c1; c2] ++ c3 :: rest) in Hx.
      rewrite ends_with_space_app in Hx by discriminate.
      change (collapse_from ((c1 :: c2 :: c3 :: rest) ++ z))
        with (if Re.space c1 && Re.space c2
              then " "%char :: collapse_from ((c3 :: rest) ++ z)
              else c1 :: collapse_from ((c2 :: c3 :: rest) ++ z)).
      rewrite H1, H2. cbn [andb app]. f_equal. apply (IHl Hx).
  - change (c1 :: c2 :: rest) with ([c1] ++ c2 :: rest) in Hx.
    rewrite ends_with_space_app in Hx by discriminate.
    change (collapse_from ((c1 :: c2 :: rest) ++ z))
      with (if Re.space c1 && Re.space c2
            then " "%char :: collapse_from (rest ++ z)
            else c1 :: collapse_from ((c2 :: rest) ++ z)).
    rewrite e1. cbn [app]. f_equal. apply (IHl Hx).
Qed.

Lemma collapse_from_spaces (y : str) :
  starts_with_space y = false ->
  forall n,
    collapse_from (replicate n " "%char ++ y)
    = replicate (Nat.div2 (S n)) " "%char ++ collapse_from y
    /\ collapse_from (replicate (S n) " "%char ++ y)
       = replicate (Nat.div2 (S (S n))) " "%char ++ collapse_from y.
Proof.
  intros Hy. induction n as [|n [IH0 IH1]].
  - split; [reflexivity|]. cbn [replicate app Nat.div2].
    destruct y as [|c rest]; [reflexivity|].
    cbn [starts_with_space] in Hy.
    change (collapse_from (" "%char :: c :: rest))
      with (if Re.space " "%char && Re.space c then " "%char :: collapse_from rest
            else " "%char :: collapse_from (c :: rest)).
    rewrite Hy, andb_false_r. reflexivity.
  - split; [exact IH1|].
    change (collapse_from (replicate (S (S n)) " "%char ++ y))
      with (if Re.space " "%char && Re.space " "%char
            then " "%char :: collapse_from (replicate n " "%char ++ y)
            else " "%char :: collapse_from (replicate (S n) " "%char ++ y)).
    change (Re.space " "%char) with true. cbn [andb]. rewrite IH0. reflexivity.
Qed.

(** The double-space step of [remove_punctuation] halves a run of spaces,
    rounding up: between a part that does not end and a part that does
    not start with whitespace, [n] spaces become (n+1)/2 spaces, so a run
    of three or more does not become a single space. *)
Theorem collapse_double_spaces_halves_runs (x y : str) (n : nat)
    (Hx : ends_with_space x = false) (Hy : starts_with_space y = false) :
  collapse_double_spaces (x ++ replicate n " "%char ++ y)
  = collapse_double_spaces x ++ replicate (Nat.div2 (S n)) " "%char
    ++ collapse_double_spaces y.
Proof.
  rewrite !collapse_double_spaces_collapse_from, collapse_from_app by exact Hx.
  f_equal. apply (collapse_from_spaces y Hy n).
Qed.

Lemma collapse_double_spaces_halves_runs_witness :
  ends_with_space (py "a") = false /\ starts_with_space (py "b") = false
  /\ collapse_double_spaces (py "a" ++ replicate 5 " "%char ++ py "b")
     = collapse_double_spaces (py "a") ++ replicate 3 " "%char
       ++ collapse_double_spaces (py "b").
Proof.
  split; [reflexivity|]. split; [reflexivity|].
  exact (collapse_double_spaces_halves_runs (py "a") (py "b") 5 eq_refl eq_refl).
Defined.

Lemma Forall_strip_from (P : ascii -> Prop) (x : str) :
  Forall P x -> forall wl, Forall P (strip_from wl x).
Proof.
  induction 1 as [|c rest Hc _ IH]; intros wl; [constructor|].
  cbn [strip_from]. destruct (hit wl c (starts_with_word rest)); [apply IH|].
  constructor; [exact Hc|apply IH].
Qed.

Lemma Forall_collapse_from (P : ascii -> Prop) (y : str) :
  P " "%char -> Forall P y -> Forall P (collapse_from y).
Proof.
  intros Hsp. functional induction (collapse_from y); intros H; try exact H.
  - constructor; [exact Hsp|]. apply IHl.
    apply Forall_cons_1 in H as [_ H]. apply Forall_cons_1 in H as [_ H]. exact H.
  - apply Forall_cons_1 in H as [H1 H2]. constructor; [exact H1|apply IHl, H2].
Qed.

Lemma length_strip_from (x : str) :
  forall wl, length (strip_from wl x) <= length x.
Proof.
  induction x as [|c rest IH]; intros wl; [reflexivity|].
  cbn [strip_from]. specialize (IH (Re.word c)).
  destruct (hit wl c (starts_with_word rest)); cbn [length]; lia.
Qed.

Lemma length_collapse_from (y : str) : length (collapse_from y) <= length y.
Proof.
  functional induction (collapse_from y); cbn [length] in *; lia.
Qed.

Lemma mandatory_cell_forall (x : str) :
  Forall (fun c => Unicode.tolower c = c
                   /\ Unicode.isdecimal c = false
                   /\ permitted c) (mandatory_cell x).
Proof.
  unfold mandatory_cell, remove_punctuation_cell.
  rewrite collapse_double_spaces_collapse_from, strip_punctuation_strip_from,
    remove_numbers_cell_filter.
  assert (Forall (fun c => Unicode.tolower c = c /\ Unicode.isdecimal c = false)
            (List.filter (fun c => negb (Re.digit c)) (lower x))) as H.
  { rewrite Forall_forall. intros c Hc.
    apply list_elem_of_In, filter_In in Hc. destruct Hc as [Hin Hd].
    split; [|apply negb_true_iff, Hd].
    apply in_map_iff in Hin. destruct Hin as (c0 & <- & _). apply tolower_tolower. }
  pose proof (Forall_strip_from _ _ H false) as H1.
  pose proof (Forall_collapse_from _ _ (conj eq_refl eq_refl) H1) as H2.
  pose proof (permitted_collapse_from _
                (permitted_strip_from
                   (List.filter (fun c => negb (Re.digit c)) (lower x)) false)) as Hp.
  rewrite Forall_forall in *. intros c Hc.
  destruct (H2 c Hc). repeat split; auto.
Qed.

(** After lowercase, remove-numbers and remove-punctuation, in this
    order, every character of the cell is its own lowercase, is no decimal
    digit, and is a word character, whitespace or a hyphen: no later stage
    brings back what an earlier one removed; and the cell is no longer
    than it was. *)
Theorem mandatory_cell_characters (x : str) :
  Forall (fun c => Unicode.tolower c = c
                   /\ Unicode.isdecimal c = false
                   /\ permitted c) (mandatory_cell x)
  /\ length (mandatory_cell x) <= length x.
Proof.
  split; [apply mandatory_cell_forall|].
  unfold mandatory_cell, remove_punctuation_cell.
  rewrite collapse_double_spaces_collapse_from, strip_punctuation_strip_from,
    remove_numbers_cell_filter.
  etransitivity; [apply length_collapse_from|].
  etransitivity; [apply length_strip_from|].
  etransitivity; [apply filter_length_le|].
  unfold lower. rewrite length_map. reflexivity.
Qed.

(** ** Lowercase and the tokens *)

Lemma isspace_tolower (c : ascii) :
  Unicode.isspace (Unicode.tolower c) = Unicode.isspace c.
Proof. by_cases_on_char c. Qed.

Lemma split_from_lower (x : str) :
  forall cur,
    split_from (lower cur) (lower x) = List.map lower (split_from cur x).
Proof.
  induction x as [|c rest IH]; intros cur.
  - destruct cur; reflexivity.
  - cbn [lower List.map split_from]. fold (lower rest).
    rewrite isspace_tolower. destruct (Unicode.isspace c).
    + destruct cur as [|c0 cur]; [apply (IH [])|].
      cbn [lower List.map]. f_equal. apply (IH []).
    + rewrite <- IH. unfold lower. rewrite List.map_app. reflexivity.
Qed.

Lemma Forall_split_from (P : ascii -> Prop) (x : str) :
  Forall P x -> forall cur, Forall P cur -> Forall (Forall P) (split_from cur x).
Proof.
  induction 1 as [|c rest Hc _ IH]; intros cur Hcur; cbn [split_from].
  - destruct cur; [constructor|]. constructor; [exact Hcur|constructor].
  - destruct (Unicode.isspace c).
    + destruct cur; [apply IH; constructor|].
      constructor; [exact Hcur|apply IH; constructor].
    + apply IH, Forall_app. split; [exact Hcur|repeat constructor; exact Hc].
Qed.

Lemma lower_fixed (t : str) :
  Forall (fun c => Unicode.tolower c = c) t -> lower t = t.
Proof.
  induction 1 as [|c t Hc _ IH]; [reflexivity|].
  cbn [lower List.map]. fold (lower t). rewrite Hc, IH. reflexivity.
Qed.

(** [lowercase] does not move the token boundaries: the tokens of the
    lowercased cell are the lowercased tokens of the cell. *)
Theorem lowercase_keeps_tokens (x : str) :
  split (lower x) = List.map lower (split x)
  /\ length (lower x) = length x.
Proof.
  split; [apply (split_from_lower x [])|apply length_map].
Qed.

(** In the order of [main], where the cell is lowercased before stopwords
    are removed, the lowercasing inside [remove_stop_words] changes no
    token: a token of the cell is dropped exactly when the token itself is
    in the stopword list. *)
Theorem stopwords_after_mandatory_stages (stopwords_en : list str) (x : str) :
  remove_stop_words stopwords_en (mandatory_cell x)
  = join (py " ")
      (List.filter (fun w => negb (bool_decide (w ∈ stopwords_en)))
         (split (mandatory_cell x))).
Proof.
  unfold remove_stop_words. cbv zeta. f_equal.
  apply filter_ext_in. intros w Hw.
  assert (Forall (Forall (fun c => Unicode.tolower c = c)) (split (mandatory_cell x)))
    as Hlow.
  { apply Forall_split_from; [|constructor].
    eapply Forall_impl; [apply mandatory_cell_forall|]. intros c H. apply H. }
  rewrite Forall_forall in Hlow.
  rewrite (lower_fixed w); [reflexivity|]. apply Hlow, list_elem_of_In, Hw.
Qed.

(** ** Stopwords and the counts *)

Lemma mandatory_cell_tokens_lower (x : str) :
  Forall (fun w => lower w = w) (split (mandatory_cell x)).
Proof.
  assert (Forall (Forall (fun c => Unicode.tolower c = c)) (split (mandatory_cell x)))
    as H.
  { apply Forall_split_from; [|constructor].
    eapply Forall_impl; [apply mandatory_cell_forall|]. intros c Hc. apply Hc. }
  eapply Forall_impl; [exact H|]. intros w Hw. apply lower_fixed, Hw.
Qed.

Lemma in_tokens_of (t : str) (col : list str) :
  In t (tokens_of col) <-> exists cell, In cell col /\ In t (split cell).
Proof.
  unfold tokens_of. rewrite in_concat. split.
  - intros (ts & Hts & Ht). apply in_map_iff in Hts as (cell & <- & Hcell).
    exists cell. split; assumption.
  - intros (cell & Hcell & Ht). exists (split cell). split; [|exact Ht].
    apply in_map_iff. exists cell. split; [reflexivity|exact Hcell].
Qed.

Section Stopwords.

Variable stopwords_en : list str.
Variable stemmer_stem : str -> str.
Variable lemmatizer_lemmatize : str -> str.

Lemma main_dom_types (start : Preprocessing) :
  all_tokens start = ∅ -> types start = ∅ ->
  let after := main stopwords_en stemmer_stem lemmatizer_lemmatize start in
  dom (all_tokens after) = types after.
Proof.
  intros Htk Hty after.
  destruct (main_counts stopwords_en stemmer_stem lemmatizer_lemmatize start Htk Hty)
    as (_ & Htypes & Hall & _).
  fold after in Htypes, Hall.
  rewrite Hall, Htypes, dom_fold_bump_map, dom_empty_L. apply (right_id_L ∅ (∪)).
Qed.

Lemma main_stop_only (start : Preprocessing) :
  stop (inputs start) = true -> stem (inputs start) = false ->
  lemma (inputs start) = false ->
  df (main stopwords_en stemmer_stem lemmatizer_lemmatize start)
  = List.map (fun x => remove_stop_words stopwords_en (mandatory_cell x)) (df start).
Proof.
  destruct start as [[a b c] col tk ty bw l]. cbn [inputs stop stem lemma].
  intros -> -> ->. cbn. rewrite !List.map_map. reflexivity.
Qed.

Lemma main_inputs (start : Preprocessing) :
  inputs (main stopwords_en stemmer_stem lemmatizer_lemmatize start) = inputs start.
Proof. destruct start as [[[] [] []] col tk ty bw l]; reflexivity. Qed.

(** When the program has run with [--stop] and without stemming or
    lemmatization, no word of the stopword list is among the types, none
    has a count in the frequency map. *)
Theorem run_with_stop_counts_no_stopword (w : World) (self : Preprocessing)
    (Hrun : run stopwords_en stemmer_stem lemmatizer_lemmatize w = Finished self)
    (Hstop : stop (inputs self) = true)
    (Hstem : stem (inputs self) = false)
    (Hlemma : lemma (inputs self) = false) :
  Forall (fun t => (t ∉ types self) /\ all_tokens self !! t = None) stopwords_en.
Proof.
  unfold run, init in Hrun.
  destruct (negb (output_dir_exists w) && mkdir_fails w); [discriminate|].
  destruct (parse_args (argv w)) as [args|]; [|discriminate].
  injection Hrun as <-.
  set (start := {| inputs := args; df := data_csv w; all_tokens := ∅; types := ∅;
                   bow := None;
                   log := (if output_dir_exists w then [] else [Mkdir]) ++ [ReadCsv] |})
    in *.
  rewrite main_inputs in Hstop, Hstem, Hlemma.
  pose proof (main_dom_types start eq_refl eq_refl) as Hdom. cbv zeta in Hdom.
  destruct (main_counts stopwords_en stemmer_stem lemmatizer_lemmatize start
              eq_refl eq_refl) as (_ & Htypes & _ & _).
  assert (forall t, t ∈ stopwords_en ->
            t ∉ types (main stopwords_en stemmer_stem lemmatizer_lemmatize start))
    as Hnot.
  { intros t Hsw Ht. rewrite Htypes, elem_of_list_to_set in Ht.
    apply list_elem_of_In, in_tokens_of in Ht as (cell & Hcell & Ht).
    rewrite (main_stop_only start Hstop Hstem Hlemma) in Hcell.
    apply in_map_iff in Hcell as (x & <- & _).
    rewrite split_remove_stop_words in Ht. apply filter_In in Ht as [Hin Hkept].
    pose proof (mandatory_cell_tokens_lower x) as Hlow.
    rewrite Forall_forall in Hlow. specialize (Hlow t (proj2 (list_elem_of_In _ _) Hin)).
    unfold kept_word in Hkept. rewrite Hlow in Hkept.
    apply negb_true_iff, bool_decide_eq_false in Hkept. contradiction. }
  rewrite Forall_forall. intros t Hsw. split; [apply Hnot, Hsw|].
  apply not_elem_of_dom. rewrite Hdom. apply Hnot, Hsw.
Qed.

End Stopwords.

Lemma run_with_stop_counts_no_stopword_witness :
  let self := main example_stopwords id id example_start in
  run example_stopwords id id example_world = Finished self
  /\ stop (inputs self) = true /\ stem (inputs self) = false
  /\ lemma (inputs self) = false
  /\ Forall (fun t => (t ∉ types self) /\ all_tokens self !! t = None)
       example_stopwords.
Proof.
  intros self.
  assert (run example_stopwords id id example_world = Finished self) as Hrun
    by reflexivity.
  split; [exact Hrun|]. split; [reflexivity|]. split; [reflexivity|].
  split; [reflexivity|].
  exact (run_with_stop_counts_no_stopword example_stopwords id id example_world self
           Hrun eq_refl eq_refl eq_refl).
Defined.
